(** * Neural-network layers of [layers.py]: a shallow embedding

    The layers are written against PyTorch.  The embedding keeps the
    structure of the Python source: every function of the file is a Rocq
    function of the same name, every exception a value of [exn], and the
    tensor primitives the source calls ([unsqueeze], [matmul], [softmax],
    [masked_fill_], [cat], ...) are modelled once, in [Torch], and used by
    the layers exactly where the source uses them.

    Conventions of the model:
    - scalars are real numbers ([R]), extended with minus infinity where
      the source writes [-torch.inf]; rounding, overflow and NaN are not
      represented.  Wherever PyTorch would produce NaN or +inf from a minus
      infinity the model answers [Unmodelled] instead of a number;
    - tensors have at most three axes, which is what [bmv] needs to
      process a sequence of vectors; an operation that would build a fourth
      axis answers [Unmodelled];
    - a finite number divided by zero ([logits / temp] at [temp = 0], or
      the division by [math.sqrt(d)] at [d = 0]) is R's total quotient,
      where PyTorch gives NaN or an infinity: a theorem that states the
      numbers a call returns, and not only that two calls agree or that the
      result is empty, assumes [temp <> 0] and [1 <= d];
    - a Python int used as an index is taken to fit in 64 bits (PyTorch
      refuses a larger one before it looks at the table);
    - sizes are natural numbers, and the random draws of a constructor
      ([torch.nn.init.normal_]) and of [gumbel_softmax] are arguments of the
      function that makes them. *)

From Stdlib Require Import String DecimalString.
From Stdlib Require Import List ZArith Reals Lra Lia Bool Arith.
Import ListNotations.

Set Implicit Arguments.

(** ** Outcomes of a Python call *)

Inductive exn : Type :=
| TypeError (msg : string)
| ValueError (msg : string)
| IndexError
| RuntimeError
| AttributeError
| ZeroDivisionError.

Inductive result (A : Type) : Type :=
| Ok (a : A)
| Raise (e : exn)
| Unmodelled.

Arguments Ok {A} a.
Arguments Raise {A} e.
Arguments Unmodelled {A}.

Definition bind {A B : Type} (c : result A) (k : A -> result B) : result B :=
  match c with
  | Ok a => k a
  | Raise e => Raise e
  | Unmodelled => Unmodelled
  end.

Notation "x <- c ;; k" := (bind c (fun x => k))
  (at level 61, c at next level, right associativity).
Notation "c ;;; k" := (bind c (fun _ => k))
  (at level 61, right associativity).

(** [if b: raise e] *)
Definition raise_if (b : bool) (e : exn) : result unit :=
  if b then Raise e else Ok tt.

Fixpoint mapM {A B : Type} (f : A -> result B) (l : list A) : result (list B) :=
  match l with
  | [] => Ok []
  | a :: l' => b <- f a ;; bs <- mapM f l' ;; Ok (b :: bs)
  end.

(** Does the call end in a [TypeError]? *)
Definition is_TypeError {A : Type} (r : result A) : bool :=
  match r with
  | Raise (TypeError _) => true
  | _ => false
  end.

(** [str(n)] of an f-string *)
Definition str (n : nat) : string := NilEmpty.string_of_uint (Nat.to_uint n).

(** Indexing a Python sequence, negative indices counting from the end. *)
Definition getitem {A : Type} (l : list A) (i : Z) : result A :=
  let n := Z.of_nat (length l) in
  let j := if (i <? 0)%Z then (i + n)%Z else i in
  if ((0 <=? j) && (j <? n))%Z
  then match nth_error l (Z.to_nat j) with
       | Some a => Ok a
       | None => Raise IndexError
       end
  else Raise IndexError.

Fixpoint map2 {A B C : Type} (f : A -> B -> C) (l1 : list A) (l2 : list B) : list C :=
  match l1, l2 with
  | a :: l1', b :: l2' => f a b :: map2 f l1' l2'
  | _, _ => []
  end.

(** ** Scalars *)

(** A float that may be [-inf] (the value [masked_fill_] writes). *)
Inductive xreal : Type :=
| NInf
| Fin (r : R).

Definition is_ninf (x : xreal) : bool :=
  match x with
  | NInf => true
  | Fin _ => false
  end.

(** [exp], with [exp(-inf) = 0]. *)
Definition xexp (x : xreal) : R :=
  match x with
  | NInf => 0%R
  | Fin r => exp r
  end.

(** [x / t]; [-inf / t] is [-inf] for a positive [t] and is not a
    modelled number otherwise.  A finite [x] is divided in R, also by
    [t = 0], where the float is NaN or an infinity. *)
Definition xdiv (t : R) (x : xreal) : result xreal :=
  match x with
  | Fin r => Ok (Fin (r / t))
  | NInf => if Rlt_dec 0 t then Ok NInf else Unmodelled
  end.

Definition rsum (l : list R) : R := fold_right Rplus 0%R l.

Fixpoint dot (u v : list R) : R :=
  match u, v with
  | a :: u', b :: v' => (a * b + dot u' v')%R
  | _, _ => 0%R
  end.

(** ** Tensors and the PyTorch primitives the layers call *)

Module Torch.

Inductive tensor (A : Type) : Type :=
| T0 (a : A)
| T1 (v : list A)
| T2 (c : nat) (rows : list (list A))
| T3 (r c : nat) (mats : list (list (list A))).

Arguments T0 {A} a.
Arguments T1 {A} v.
Arguments T2 {A} c rows.
Arguments T3 {A} r c mats.

(** [t.size()] *)
Definition size {A : Type} (t : tensor A) : list nat :=
  match t with
  | T0 _ => []
  | T1 v => [length v]
  | T2 c rows => [length rows; c]
  | T3 r c mats => [length mats; r; c]
  end.

(** [t.ndim] *)
Definition ndim {A : Type} (t : tensor A) : nat := length (size t).

(** The lists agree with the recorded sizes. *)
Definition wf {A : Type} (t : tensor A) : Prop :=
  match t with
  | T0 _ | T1 _ => True
  | T2 c rows => Forall (fun row => length row = c) rows
  | T3 r c mats =>
      Forall (fun m => length m = r /\ Forall (fun row => length row = c) m) mats
  end.

Definition tmap {A B : Type} (f : A -> B) (t : tensor A) : tensor B :=
  match t with
  | T0 a => T0 (f a)
  | T1 v => T1 (map f v)
  | T2 c rows => T2 c (map (map f) rows)
  | T3 r c mats => T3 r c (map (map (map f)) mats)
  end.

Definition tmapM {A B : Type} (f : A -> result B) (t : tensor A) : result (tensor B) :=
  match t with
  | T0 a => b <- f a ;; Ok (T0 b)
  | T1 v => w <- mapM f v ;; Ok (T1 w)
  | T2 c rows => rs <- mapM (mapM f) rows ;; Ok (T2 c rs)
  | T3 r c mats => ms <- mapM (mapM (mapM f)) mats ;; Ok (T3 r c ms)
  end.

(** A function of one vector applied along the last axis. *)
Definition along_last {A B : Type} (f : list A -> result (list B)) (t : tensor A)
  : result (tensor B) :=
  match t with
  | T0 a => w <- f [a] ;;
            match w with
            | [b] => Ok (T0 b)
            | _ => Unmodelled
            end
  | T1 v => w <- f v ;; Ok (T1 w)
  | T2 c rows => rs <- mapM f rows ;; Ok (T2 c rs)
  | T3 r c mats => ms <- mapM (mapM f) mats ;; Ok (T3 r c ms)
  end.

Definition single {A : Type} (a : A) : list A := [a].

(** [t.unsqueeze(dim)] *)
Definition unsqueeze {A : Type} (dim : Z) (t : tensor A) : result (tensor A) :=
  let nd := Z.of_nat (ndim t) in
  let d := if (dim <? 0)%Z then (dim + nd + 1)%Z else dim in
  if negb ((0 <=? d) && (d <=? nd))%Z then Raise IndexError else
  match t, Z.to_nat d with
  | T0 a, _ => Ok (T1 [a])
  | T1 v, 0 => Ok (T2 (length v) [v])
  | T1 v, _ => Ok (T2 1 (map single v))
  | T2 c rows, 0 => Ok (T3 (length rows) c [rows])
  | T2 c rows, 1 => Ok (T3 1 c (map single rows))
  | T2 c rows, _ => Ok (T3 c 1 (map (map single) rows))
  | T3 _ _ _, _ => Unmodelled
  end.

(** [t.squeeze(-1)]: the last axis is removed when its size is 1. *)
Definition squeeze_last {A : Type} (t : tensor A) : tensor A :=
  match t with
  | T0 a => T0 a
  | T1 [a] => T0 a
  | T1 v => T1 v
  | T2 c rows => if c =? 1 then T1 (concat rows) else T2 c rows
  | T3 r c mats => if c =? 1 then T2 r (map (@concat A) mats) else T3 r c mats
  end.

(** Column [j] of a list of rows. *)
Definition col {A : Type} (j : nat) (rows : list (list A)) : list A :=
  flat_map (fun row => firstn 1 (skipn j row)) rows.

(** The [c] columns of a list of rows of length [c]. *)
Definition columns {A : Type} (c : nat) (rows : list (list A)) : list (list A) :=
  map (fun j => col j rows) (seq 0 c).

(** [t.transpose(-2, -1)] *)
Definition transpose_last2 {A : Type} (t : tensor A) : result (tensor A) :=
  match t with
  | T0 _ | T1 _ => Raise IndexError
  | T2 c rows => Ok (T2 (length rows) (columns c rows))
  | T3 r c mats => Ok (T3 c r (map (columns c) mats))
  end.

(** Product of a matrix given by its rows with one given by its columns. *)
Definition mm (a : list (list R)) (bcols : list (list R)) : list (list R) :=
  map (fun arow => map (dot arow) bcols) a.

(** Matrix times vector. *)
Definition mv (a : list (list R)) (x : list R) : list R :=
  map (fun arow => dot arow x) a.

(** A size-1 axis repeated [n] times; any other axis is left as it is. *)
Definition stretch {A : Type} (n : nat) (l : list A) : list A :=
  match l with
  | [x] => repeat x n
  | _ => l
  end.

(** [a @ b] *)
Definition matmul (a b : tensor R) : result (tensor R) :=
  match a, b with
  | T0 _, _ | _, T0 _ => Raise RuntimeError
  | T1 u, T1 v =>
      if length u =? length v then Ok (T0 (dot u v)) else Raise RuntimeError
  | T1 u, T2 p brows =>
      if length u =? length brows then Ok (T1 (map (dot u) (columns p brows)))
      else Raise RuntimeError
  | T2 k arows, T1 v =>
      if k =? length v then Ok (T1 (mv arows v)) else Raise RuntimeError
  | T2 k arows, T2 p brows =>
      if k =? length brows then Ok (T2 p (mm arows (columns p brows)))
      else Raise RuntimeError
  | T1 u, T3 r p bmats =>
      if length u =? r then Ok (T2 p (map (fun bm => map (dot u) (columns p bm)) bmats))
      else Raise RuntimeError
  | T3 r k amats, T1 v =>
      if k =? length v then Ok (T2 r (map (fun am => mv am v) amats))
      else Raise RuntimeError
  | T2 k arows, T3 r p bmats =>
      if k =? r
      then Ok (T3 (length arows) p (map (fun bm => mm arows (columns p bm)) bmats))
      else Raise RuntimeError
  | T3 r k amats, T2 p brows =>
      if k =? length brows
      then Ok (T3 r p (map (fun am => mm am (columns p brows)) amats))
      else Raise RuntimeError
  | T3 r k amats, T3 r' p bmats =>
      let ba := length amats in
      let bb := length bmats in
      if negb (k =? r') then Raise RuntimeError
      else if (ba =? bb) || (ba =? 1) || (bb =? 1)
      then let n := if ba =? 1 then bb else ba in
           Ok (T3 r p (map2 (fun am bm => mm am (columns p bm))
                            (stretch n amats) (stretch n bmats)))
      else Raise RuntimeError
  end.

(** *** Broadcasting *)

(** Sizes are compared from the last axis backwards. *)
Fixpoint broadcast_rev (s1 s2 : list nat) : option (list nat) :=
  match s1, s2 with
  | [], _ => Some s2
  | _, [] => Some s1
  | a :: s1', b :: s2' =>
      match broadcast_rev s1' s2' with
      | None => None
      | Some s =>
          if a =? b then Some (a :: s)
          else if a =? 1 then Some (b :: s)
          else if b =? 1 then Some (a :: s)
          else None
      end
  end.

(** [torch.broadcast_shapes(s1, s2)] *)
Definition broadcast_shapes (s1 s2 : list nat) : option (list nat) :=
  option_map (@rev nat) (broadcast_rev (rev s1) (rev s2)).

Definition shape_eqb (s1 s2 : list nat) : bool :=
  if list_eq_dec Nat.eq_dec s1 s2 then true else false.

(** The entries of a tensor seen with three axes (leading axes of size 1). *)
Definition as3 {A : Type} (t : tensor A) : list (list (list A)) :=
  match t with
  | T0 a => [[[a]]]
  | T1 v => [[v]]
  | T2 _ rows => [rows]
  | T3 _ _ mats => mats
  end.

Definition expand3 {A : Type} (b r c : nat) (d : list (list (list A)))
  : list (list (list A)) :=
  stretch b (map (fun m => stretch r (map (stretch c) m)) d).

(** [t.expand(s)]: [t] broadcast to the size [s]. *)
Definition expand_to {A : Type} (s : list nat) (t : tensor A) : result (tensor A) :=
  match broadcast_shapes (size t) s with
  | None => Raise RuntimeError
  | Some s' =>
      if negb (shape_eqb s' s) then Raise RuntimeError else
      match s with
      | [] => Ok t
      | [n] => Ok (T1 (concat (concat (expand3 1 1 n (as3 t)))))
      | [m; n] => Ok (T2 n (concat (expand3 1 m n (as3 t))))
      | [b; m; n] => Ok (T3 m n (expand3 b m n (as3 t)))
      | _ => Unmodelled
      end
  end.

(** Entry-wise combination of two tensors of the same size. *)
Definition zip_with {A B C : Type} (f : A -> B -> C) (a : tensor A) (b : tensor B)
  : result (tensor C) :=
  match a, b with
  | T0 x, T0 y => Ok (T0 (f x y))
  | T1 u, T1 v => Ok (T1 (map2 f u v))
  | T2 c ra, T2 _ rb => Ok (T2 c (map2 (map2 f) ra rb))
  | T3 r c ma, T3 _ _ mb => Ok (T3 r c (map2 (map2 (map2 f)) ma mb))
  | _, _ => Unmodelled
  end.

(** A binary entry-wise operator ([a + b], [a < b], ...), with broadcasting. *)
Definition broadcast2 {A B C : Type} (f : A -> B -> C) (a : tensor A) (b : tensor B)
  : result (tensor C) :=
  match broadcast_shapes (size a) (size b) with
  | None => Raise RuntimeError
  | Some s => a' <- expand_to s a ;; b' <- expand_to s b ;; zip_with f a' b'
  end.

(** [a + b] *)
Definition add (a b : tensor R) : result (tensor R) := broadcast2 Rplus a b.

(** [t / x] for a Python number [x]; R's quotient, also at [x = 0], where
    the floats are NaN or infinities. *)
Definition div_scalar (t : tensor R) (x : R) : tensor R :=
  tmap (fun a => (a / x)%R) t.

(** [t * x] for a Python number [x] *)
Definition mul_scalar (t : tensor R) (x : R) : tensor R :=
  tmap (fun a => (a * x)%R) t.

(** [torch.arange(n)] *)
Definition arange (n : nat) : tensor nat := T1 (seq 0 n).

(** [logits.masked_fill_(mask, -torch.inf)]: in place, so the mask has to
    broadcast to the size of [logits] itself. *)
Definition masked_fill_ninf (logits : tensor R) (mask : tensor bool)
  : result (tensor xreal) :=
  m <- expand_to (size logits) mask ;;
  zip_with (fun x (b : bool) => if b then NInf else Fin x) logits m.

(** *** Reductions along an axis *)

Definition softmax_row (l : list xreal) : result (list R) :=
  match l with
  | [] => Ok []
  | _ => if forallb is_ninf l then Unmodelled
         else let s := rsum (map xexp l) in
              Ok (map (fun x => (xexp x / s)%R) l)
  end.

(** [torch.softmax(t, dim=-1)] *)
Definition softmax (t : tensor xreal) : result (tensor R) :=
  along_last softmax_row t.

Definition log_softmax_row (l : list R) : result (list R) :=
  let s := ln (rsum (map exp l)) in Ok (map (fun x => (x - s)%R) l).

(** [torch.log_softmax(t, dim=-1)] *)
Definition log_softmax (t : tensor R) : result (tensor R) :=
  along_last log_softmax_row t.

Definition eps : R := (/ 10 ^ 12)%R.

Definition norm2 (v : list R) : R := sqrt (rsum (map (fun x => (x * x)%R) v)).

Definition normalize_row (v : list R) : list R :=
  let n := Rmax (norm2 v) eps in map (fun x => (x / n)%R) v.

(** [torch.nn.functional.normalize(t, dim=-1)] *)
Definition normalize (t : tensor R) : result (tensor R) :=
  along_last (fun v => Ok (normalize_row v)) t.

(** Index of the first maximal entry after [i], [bi] being the best so far. *)
Fixpoint argmax_from (best : R) (bi i : nat) (l : list R) : nat :=
  match l with
  | [] => bi
  | x :: l' =>
      if Rlt_dec best x then argmax_from x i (S i) l'
      else argmax_from best bi (S i) l'
  end.

Definition argmax_row (l : list R) : result nat :=
  match l with
  | [] => Raise IndexError
  | x :: l' => Ok (argmax_from x 0 1 l')
  end.

(** [torch.argmax(t, dim=1)]; an axis 1 of size 0 is refused, also when
    there is no row to reduce. *)
Definition argmax_dim1 (t : tensor R) : result (tensor nat) :=
  match t with
  | T0 _ | T1 _ => Raise IndexError
  | T2 c rows =>
      if c =? 0 then Raise IndexError
      else idx <- mapM argmax_row rows ;; Ok (T1 idx)
  | T3 r c mats =>
      if r =? 0 then Raise IndexError
      else idx <- mapM (fun m => mapM argmax_row (columns c m)) mats ;; Ok (T2 c idx)
  end.

(** [idx.float()] *)
Definition float (t : tensor nat) : tensor R := tmap INR t.

Definition one_hot (n i : nat) : list R :=
  map (fun j => if j =? i then 1%R else 0%R) (seq 0 n).

(** [torch.nn.functional.gumbel_softmax(logits, dim=1, hard=True, tau=tau)],
    on a matrix; [gumbels] is the noise the call samples. *)
Definition gumbel_softmax_hard (logits gumbels : tensor R) (tau : R)
  : result (tensor R) :=
  match logits with
  | T0 _ | T1 _ => Raise IndexError
  | T2 c _ =>
      g <- add logits gumbels ;;
      y_soft <- softmax (tmap Fin (div_scalar g tau)) ;;
      index <- argmax_dim1 y_soft ;;
      match index with
      | T1 idx =>
          let y_hard := T2 c (map (one_hot c) idx) in
          broadcast2 (fun h s => (h - s + s)%R) y_hard y_soft
      | _ => Unmodelled
      end
  | T3 _ _ _ => Unmodelled
  end.

(** *** Joining and indexing *)

Definition cat2 {A : Type} (a b : tensor A) : result (tensor A) :=
  match a, b with
  | T1 u, T1 v => Ok (T1 (u ++ v))
  | T2 c ra, T2 c' rb =>
      if c =? c' then Ok (T2 c (ra ++ rb)) else Raise RuntimeError
  | T3 r c ma, T3 r' c' mb =>
      if (r =? r') && (c =? c') then Ok (T3 r c (ma ++ mb)) else Raise RuntimeError
  | _, _ => Raise RuntimeError
  end.

Definition is_empty_1d {A : Type} (t : tensor A) : bool :=
  match t with
  | T1 [] => true
  | _ => false
  end.

(** [torch.cat(ts, dim=0)]; one-axis empty tensors are skipped. *)
Definition cat {A : Type} (ts : list (tensor A)) : result (tensor A) :=
  match ts with
  | [] => Raise RuntimeError
  | _ =>
      match filter (fun t => negb (is_empty_1d t)) ts with
      | [] => Ok (T1 [])
      | T0 _ :: _ => Raise RuntimeError
      | t :: rest => fold_left (fun acc x => a <- acc ;; cat2 a x) rest (Ok t)
      end
  end.

Definition vec_of {A : Type} (n : nat) (t : tensor A) : result (list A) :=
  match t with
  | T1 v => if length v =? n then Ok v else Raise RuntimeError
  | _ => Raise RuntimeError
  end.

Definition mat_of {A : Type} (n c : nat) (t : tensor A) : result (list (list A)) :=
  match t with
  | T2 c' rows => if (length rows =? n) && (c' =? c) then Ok rows else Raise RuntimeError
  | _ => Raise RuntimeError
  end.

Definition scalar_of {A : Type} (t : tensor A) : result A :=
  match t with
  | T0 a => Ok a
  | _ => Raise RuntimeError
  end.

(** [torch.stack(ts)]: tensors of one size, along a new first axis. *)
Definition stack {A : Type} (ts : list (tensor A)) : result (tensor A) :=
  match ts with
  | [] => Raise RuntimeError
  | T0 _ :: _ => v <- mapM scalar_of ts ;; Ok (T1 v)
  | T1 v :: _ => rows <- mapM (vec_of (length v)) ts ;; Ok (T2 (length v) rows)
  | T2 c rows :: _ =>
      mats <- mapM (mat_of (length rows) c) ts ;; Ok (T3 (length rows) c mats)
  | T3 _ _ _ :: _ => Unmodelled
  end.

(** [for x in t]: the entries along the first axis. *)
Definition iter {A : Type} (t : tensor A) : result (list (tensor A)) :=
  match t with
  | T0 _ => Raise (TypeError "iteration over a 0-d tensor")
  | T1 v => Ok (map T0 v)
  | T2 c rows => Ok (map T1 rows)
  | T3 r c mats => Ok (map (T2 c) mats)
  end.

(** [w[i]] for a Python int [i] *)
Definition index_int {A : Type} (w : tensor A) (i : Z) : result (tensor A) :=
  match w with
  | T0 _ => Raise IndexError
  | T1 v => a <- getitem v i ;; Ok (T0 a)
  | T2 c rows => row <- getitem rows i ;; Ok (T1 row)
  | T3 r c mats => m <- getitem mats i ;; Ok (T2 c m)
  end.

(** [w[idx]] for a matrix [w] and a tensor of indices [idx] *)
Definition index_tensor {A : Type} (w : tensor A) (idx : tensor Z) : result (tensor A) :=
  match w with
  | T2 c rows =>
      match idx with
      | T0 i => row <- getitem rows i ;; Ok (T1 row)
      | T1 v => rs <- mapM (getitem rows) v ;; Ok (T2 c rs)
      | T2 c' irows => ms <- mapM (mapM (getitem rows)) irows ;; Ok (T3 c' c ms)
      | T3 _ _ _ => Unmodelled
      end
  | _ => Unmodelled
  end.

End Torch.

Import Torch.

(** ** Python values a caller may pass where a word id is expected *)

Inductive dtype : Type :=
| bool_ | uint8 | int8 | int16 | int32 | int64
| float16 | float32 | float64.

Inductive pyobj : Type :=
| PyInt (i : Z)
| PyFloat (x : R)
| PyIntTensor (dt : dtype) (t : tensor Z)
| PyFloatTensor (dt : dtype) (t : tensor R).

(** [isinstance(o, int)] *)
Definition isinstance_int (o : pyobj) : bool :=
  match o with
  | PyInt _ => true
  | _ => false
  end.

(** [o.dtype]: only tensors have the attribute. *)
Definition dtype_of (o : pyobj) : result dtype :=
  match o with
  | PyIntTensor dt _ | PyFloatTensor dt _ => Ok dt
  | PyInt _ | PyFloat _ => Raise AttributeError
  end.

(** [dt in [torch.int32, torch.int64]] *)
Definition is_int32_or_int64 (dt : dtype) : bool :=
  match dt with
  | int32 | int64 => true
  | _ => false
  end.

(** Integral dtypes of PyTorch. *)
Definition integral (dt : dtype) : bool :=
  match dt with
  | uint8 | int8 | int16 | int32 | int64 => true
  | _ => false
  end.

(** [torch.empty(rows, cols)] filled by [torch.nn.init.normal_]; [sample i j]
    is the value drawn for entry [(i, j)]. *)
Definition normal_matrix (rows cols : nat) (sample : nat -> nat -> R) : tensor R :=
  T2 cols (map (fun i => map (sample i) (seq 0 cols)) (seq 0 rows)).

(** [torch.empty(n)] filled by [torch.nn.init.normal_]. *)
Definition normal_vector (n : nat) (sample : nat -> R) : tensor R :=
  T1 (map sample (seq 0 n)).

(** ** [bmv] (lines 13-27) *)

Definition bmv (w x : tensor R) : result (tensor R) :=
  x <- unsqueeze (-1) x ;;
  y <- matmul w x ;;
  Ok (squeeze_last y).

(** ** [Embedding] (lines 29-72) *)

Module Embedding.

Record t : Type := { W : tensor R }.

Definition init (vocab_size output_dims : nat) (sample : nat -> nat -> R) : t :=
  {| W := normal_matrix vocab_size output_dims sample |}.

(** [self.W[inp]]; a Python int [i] is taken to fit in 64 bits. *)
Definition lookup (w : tensor R) (inp : pyobj) : result (tensor R) :=
  match inp with
  | PyInt i => index_int w i
  | PyIntTensor _ idx => index_tensor w idx
  | _ => Unmodelled
  end.

Definition forward (self : t) (inp : pyobj) : result (tensor R) :=
  ok <- (if isinstance_int inp then Ok true
         else dt <- dtype_of inp ;; Ok (is_int32_or_int64 dt)) ;;
  raise_if (negb ok) (TypeError "input should be an integer or tensor of integers") ;;;
  emb <- lookup (W self) inp ;;
  normalize emb.

End Embedding.

(** ** [RNN] (lines 74-146) *)

Module RNN.

Record t : Type := {
  dims : nat;
  h0 : tensor R;
  W_hi : tensor R;
  W_hh : tensor R;
  b : tensor R
}.

Definition init (dims : nat) (s_h0 : nat -> R) (s_hi s_hh : nat -> nat -> R)
  (s_b : nat -> R) : t :=
  {| dims := dims;
     h0 := normal_vector dims s_h0;
     W_hi := normal_matrix dims dims s_hi;
     W_hh := normal_matrix dims dims s_hh;
     b := normal_vector dims s_b |}.

Definition start (self : t) : tensor R := h0 self.

Definition step (self : t) (state inp : tensor R) : result (tensor R * tensor R) :=
  sd <- getitem (size state) (-1) ;;
  raise_if (negb (sd =? dims self))
    (TypeError ("Previous hidden-state vector must have size " ++ str (dims self))) ;;;
  xd <- getitem (size inp) (-1) ;;
  raise_if (negb (xd =? dims self))
    (TypeError ("Input vector must have size " ++ str (dims self))) ;;;
  wx <- bmv (W_hi self) inp ;;
  ws <- bmv (W_hh self) state ;;
  s1 <- add wx ws ;;
  s2 <- add s1 (b self) ;;
  let state := tmap tanh s2 in
  out <- add state inp ;;
  Ok (state, out).

(** The body of [for inp in inputs], from hidden state [h]. *)
Fixpoint loop (self : t) (h : tensor R) (inputs : list (tensor R))
  : result (list (tensor R)) :=
  match inputs with
  | [] => Ok []
  | inp :: rest =>
      ho <- step self h inp ;;
      outputs <- loop self (fst ho) rest ;;
      Ok (snd ho :: outputs)
  end.

Definition forward (self : t) (inputs : tensor R) : result (tensor R) :=
  raise_if (negb (ndim inputs =? 2)) (TypeError "inputs must have exactly two axes") ;;;
  d <- getitem (size inputs) 1 ;;
  raise_if (negb (d =? dims self))
    (TypeError ("Input vectors must have size " ++ str (dims self))) ;;;
  xs <- iter inputs ;;
  outputs <- loop self (start self) xs ;;
  stack outputs.

End RNN.

(** ** [LinearLayer] (lines 148-195) *)

Module LinearLayer.

Record t : Type := {
  residual : bool;
  W : tensor R;
  b : tensor R
}.

Definition init (input_dims output_dims : nat) (residual : bool)
  (s_W : nat -> nat -> R) (s_b : nat -> R) : result t :=
  raise_if (residual && negb (input_dims =? output_dims))
    (ValueError "A residual connection requires the same number of input and output dimensions.") ;;;
  Ok {| residual := residual;
        W := normal_matrix output_dims input_dims s_W;
        b := normal_vector output_dims s_b |}.

Definition forward (self : t) (inp : tensor R) : result (tensor R) :=
  input_dims <- getitem (size (W self)) (-1) ;;
  d <- getitem (size inp) (-1) ;;
  raise_if (negb (d =? input_dims))
    (TypeError ("The inputs must have size " ++ str input_dims
                ++ " (not " ++ str d ++ ")")) ;;;
  wx <- bmv (W self) inp ;;
  out <- add wx (b self) ;;
  if residual self then add out inp else Ok out.

End LinearLayer.

(** ** [SoftmaxLayer] (lines 197-239) *)

Module SoftmaxLayer.

Record t : Type := { W : tensor R }.

Definition init (input_dims output_dims : nat) (s_W : nat -> nat -> R) : t :=
  {| W := normal_matrix output_dims input_dims s_W |}.

(** [normalize(self.W, dim=1)]: on a matrix the axis 1 is the last one. *)
Definition normalize_dim1 (w : tensor R) : result (tensor R) :=
  match w with
  | T2 _ _ => normalize w
  | T0 _ | T1 _ => Raise IndexError
  | T3 _ _ _ => Unmodelled
  end.

Definition forward (self : t) (inp : tensor R) : result (tensor R) :=
  input_dims <- getitem (size (W self)) (-1) ;;
  d <- getitem (size inp) (-1) ;;
  raise_if (negb (d =? input_dims))
    (TypeError ("The inputs must have size " ++ str input_dims)) ;;;
  W <- normalize_dim1 (W self) ;;
  inp <- normalize inp ;;
  let inp := mul_scalar inp 10 in
  y <- bmv W inp ;;
  log_softmax y.

End SoftmaxLayer.

(** ** [attention] and [hardAttention] (lines 241-334) *)

(** The four size checks the two functions open with; the result is
    [d = query.size()[-1]]. *)
Definition check_sizes (query keys vals : tensor R) (mask : option (tensor bool))
  : result nat :=
  qd <- getitem (size query) (-1) ;;
  kd <- getitem (size keys) (-1) ;;
  raise_if (negb (qd =? kd)) (TypeError "The queries and keys should be the same size") ;;;
  d <- getitem (size query) (-1) ;;
  kn <- getitem (size keys) (-2) ;;
  vn <- getitem (size vals) (-2) ;;
  raise_if (negb (kn =? vn)) (TypeError "There must be the same number of keys and values") ;;;
  match mask with
  | None => Ok d
  | Some mask =>
      (if 2 <=? length (size query)
       then mq <- getitem (size mask) (-2) ;;
            qn <- getitem (size query) (-2) ;;
            raise_if (negb (mq =? qn)) (TypeError "Mask has wrong size")
       else Ok tt) ;;;
      mk <- getitem (size mask) (-1) ;;
      kn <- getitem (size keys) (-2) ;;
      raise_if (negb (mk =? kn)) (TypeError "Mask has wrong size") ;;;
      Ok d
  end.

(** [query @ keys.transpose(-2, -1) / math.sqrt(d)], then the mask. *)
Definition masked_logits (query keys : tensor R) (mask : option (tensor bool)) (d : nat)
  : result (tensor xreal) :=
  kt <- transpose_last2 keys ;;
  qk <- matmul query kt ;;
  let logits := div_scalar qk (sqrt (INR d)) in
  match mask with
  | None => Ok (tmap Fin logits)
  | Some mask => masked_fill_ninf logits mask
  end.

Definition attention (query keys vals : tensor R) (mask : option (tensor bool))
  (temp : R) : result (tensor R) :=
  d <- check_sizes query keys vals mask ;;
  logits <- masked_logits query keys mask d ;;
  scaled <- tmapM (xdiv temp) logits ;;
  aweights <- softmax scaled ;;
  matmul aweights vals.

(** [gumbels] is the noise [gumbel_softmax] draws when [gumbel] is true. *)
Definition hardAttention (query keys vals : tensor R) (mask : option (tensor bool))
  (gumbel : bool) (gumbels : tensor R) : result (tensor R) :=
  d <- check_sizes query keys vals mask ;;
  logits <- masked_logits query keys mask d ;;
  aweights <- softmax logits ;;
  choices <- (if gumbel
              then gumbel_softmax_hard aweights gumbels (/ 10)
              else idx <- argmax_dim1 aweights ;; Ok (float idx)) ;;
  matmul choices vals.

(** ** The attention layers (lines 336-589) *)

Module AttentionLayer.

Record t : Type := {
  dims : nat;
  W_Q : tensor R;
  W_K : tensor R;
  W_V : tensor R
}.

Definition init (dims : nat) (s_Q s_K s_V : nat -> nat -> R) : t :=
  {| dims := dims;
     W_Q := normal_matrix dims dims s_Q;
     W_K := normal_matrix dims dims s_K;
     W_V := normal_matrix dims dims s_V |}.

(** The sizes [__init__] gives the three projections. *)
Definition wf (self : t) : Prop :=
  exists q k v,
    W_Q self = T2 (dims self) q /\ W_K self = T2 (dims self) k /\
    W_V self = T2 (dims self) v /\
    length q = dims self /\ length k = dims self /\ length v = dims self /\
    Forall (fun row => length row = dims self) q /\
    Forall (fun row => length row = dims self) k /\
    Forall (fun row => length row = dims self) v.

End AttentionLayer.

Import AttentionLayer.

Module SelfAttentionLayer.

Definition forward (self : AttentionLayer.t) (inputs : tensor R) : result (tensor R) :=
  raise_if (ndim inputs <? 2) (TypeError "inputs must have at least two axes") ;;;
  d <- getitem (size inputs) (-1) ;;
  raise_if (negb (d =? dims self))
    (TypeError ("input vectors must have size " ++ str (dims self))) ;;;
  queries <- bmv (W_Q self) inputs ;;
  keys <- bmv (W_K self) inputs ;;
  values <- bmv (W_V self) inputs ;;
  outputs <- attention queries keys values None 1 ;;
  add outputs inputs.

End SelfAttentionLayer.

Module HardSelfAttentionLayer.

Definition forward (self : AttentionLayer.t) (inputs : tensor R) (gumbel : bool)
  (gumbels : tensor R) : result (tensor R) :=
  raise_if (ndim inputs <? 2) (TypeError "inputs must have at least two axes") ;;;
  d <- getitem (size inputs) (-1) ;;
  raise_if (negb (d =? dims self))
    (TypeError ("input vectors must have size " ++ str (dims self))) ;;;
  queries <- bmv (W_Q self) inputs ;;
  keys <- bmv (W_K self) inputs ;;
  values <- bmv (W_V self) inputs ;;
  outputs <- (if gumbel
              then hardAttention queries keys values None true gumbels
              else hardAttention queries keys values None false gumbels) ;;
  add outputs inputs.

End HardSelfAttentionLayer.

(** [torch.arange(n).unsqueeze(1) < torch.arange(n)] *)
Definition causal_mask (n : nat) : result (tensor bool) :=
  a <- unsqueeze 1 (arange n) ;;
  broadcast2 Nat.ltb a (arange n).

Module MaskedSelfAttentionLayer.

Definition start (self : AttentionLayer.t) : tensor R := T2 (dims self) [].

Definition step (self : AttentionLayer.t) (prev_inps inp : tensor R)
  : result (tensor R * tensor R) :=
  x <- unsqueeze 0 inp ;;
  inputs <- cat [prev_inps; x] ;;
  query <- bmv (W_Q self) inp ;;
  keys <- bmv (W_K self) inputs ;;
  values <- bmv (W_V self) inputs ;;
  output <- attention query keys values None 1 ;;
  output <- add output inp ;;
  Ok (inputs, output).

Definition forward (self : AttentionLayer.t) (inputs : tensor R) : result (tensor R) :=
  raise_if (ndim inputs <? 2) (TypeError "inputs must have at least two axes") ;;;
  n <- getitem (size inputs) (-2) ;;
  d <- getitem (size inputs) (-1) ;;
  raise_if (negb (d =? dims self))
    (TypeError ("input vectors must have size " ++ str (dims self))) ;;;
  queries <- bmv (W_Q self) inputs ;;
  keys <- bmv (W_K self) inputs ;;
  values <- bmv (W_V self) inputs ;;
  mask <- causal_mask n ;;
  outputs <- attention queries keys values (Some mask) 1 ;;
  add outputs inputs.

End MaskedSelfAttentionLayer.

Module MaskedSelfAttentionLayerTemp.

Definition start (self : AttentionLayer.t) : tensor R := T2 (dims self) [].

Definition step (self : AttentionLayer.t) (prev_inps inp : tensor R)
  : result (tensor R * tensor R) :=
  x <- unsqueeze 0 inp ;;
  inputs <- cat [prev_inps; x] ;;
  query <- bmv (W_Q self) inp ;;
  keys <- bmv (W_K self) inputs ;;
  values <- bmv (W_V self) inputs ;;
  output <- attention query keys values None 1 ;;
  output <- add output inp ;;
  Ok (inputs, output).

Definition forward (self : AttentionLayer.t) (inputs : tensor R) : result (tensor R) :=
  raise_if (ndim inputs <? 2) (TypeError "inputs must have at least two axes") ;;;
  n <- getitem (size inputs) (-2) ;;
  d <- getitem (size inputs) (-1) ;;
  raise_if (negb (d =? dims self))
    (TypeError ("input vectors must have size " ++ str (dims self))) ;;;
  queries <- bmv (W_Q self) inputs ;;
  keys <- bmv (W_K self) inputs ;;
  values <- bmv (W_V self) inputs ;;
  temp <- (if n ^ 3 =? 0 then Raise ZeroDivisionError else Ok (1 / INR (n ^ 3))%R) ;;
  mask <- causal_mask n ;;
  outputs <- attention queries keys values (Some mask) temp ;;
  add outputs inputs.

End MaskedSelfAttentionLayerTemp.

Module CrossAttentionLayer.

Definition forward (self : AttentionLayer.t) (finputs einputs : tensor R)
  : result (tensor R) :=
  raise_if (ndim finputs <? 2) (TypeError "finputs must have at least two axes") ;;;
  fd <- getitem (size finputs) (-1) ;;
  raise_if (negb (fd =? dims self))
    (TypeError ("finputs vectors must have size " ++ str (dims self))) ;;;
  ed <- getitem (size einputs) (-1) ;;
  raise_if (negb (ed =? dims self))
    (TypeError ("einputs vectors must have size " ++ str (dims self))) ;;;
  queries <- bmv (W_Q self) einputs ;;
  keys <- bmv (W_K self) finputs ;;
  values <- bmv (W_V self) finputs ;;
  outputs <- attention queries keys values None 1 ;;
  add outputs einputs.

End CrossAttentionLayer.

(** ** [MHSelfAttentionLayer] and [FFN] (lines 591-613) *)

Module MHSelfAttentionLayer.

Record t : Type := { heads : list AttentionLayer.t }.

Definition forward (self : t) (inp : tensor R) : result (tensor R) :=
  outs <- mapM (fun h => SelfAttentionLayer.forward h inp) (heads self) ;;
  total <- fold_left (fun acc o => a <- acc ;; add a o) outs (Ok (T0 0%R)) ;;
  match heads self with
  | [] => Raise ZeroDivisionError
  | _ => Ok (div_scalar total (INR (length (heads self))))
  end.

End MHSelfAttentionLayer.

Module FFN.

Record t : Type := {
  lin1 : LinearLayer.t;
  lin2 : LinearLayer.t;
  residual : bool
}.

Definition init (idims hdims odims : nat) (residual : bool)
  (s_W1 : nat -> nat -> R) (s_b1 : nat -> R) (s_W2 : nat -> nat -> R) (s_b2 : nat -> R)
  : result t :=
  l1 <- LinearLayer.init idims hdims false s_W1 s_b1 ;;
  l2 <- LinearLayer.init hdims odims false s_W2 s_b2 ;;
  Ok {| lin1 := l1; lin2 := l2; residual := residual |}.

Definition forward (self : t) (inp : tensor R) : result (tensor R) :=
  h <- LinearLayer.forward (lin1 self) inp ;;
  let hid := tmap (fun x => Rmax x 0) h in
  out <- LinearLayer.forward (lin2 self) hid ;;
  if residual self then add inp out else Ok out.

End FFN.

(** ** Vocabulary of the statements *)

Definition vadd (u v : list R) : list R := map2 Rplus u v.

(** The rows of a matrix parameter. *)
Definition rows_of (w : tensor R) : list (list R) :=
  match w with
  | T2 _ rows => rows
  | _ => []
  end.

(** The coordinates of a vector parameter. *)
Definition coords (w : tensor R) : list R :=
  match w with
  | T1 v => v
  | _ => []
  end.

(** All entries of a tensor, in order. *)
Definition entries {A : Type} (t : tensor A) : list A := concat (concat (as3 t)).

Definition all_false (mask : tensor bool) : bool := forallb negb (entries mask).

(** Size of the axis [k] places before the last one (0 when there is none). *)
Definition axis_from_end {A : Type} (k : nat) (t : tensor A) : nat :=
  nth k (rev (size t)) 0.

(** Do the trailing sizes of the mask equal (query-count, key-count)?  For a
    single query vector there is no query count and the last size is
    compared with the key count. *)
Definition trailing_match (query keys : tensor R) (mask : tensor bool) : bool :=
  if 2 <=? ndim query
  then (2 <=? ndim mask)
       && (axis_from_end 1 mask =? axis_from_end 1 query)
       && (axis_from_end 0 mask =? axis_from_end 1 keys)
  else (1 <=? ndim mask) && (axis_from_end 0 mask =? axis_from_end 1 keys).

(** The size a mask for these queries and keys has: the size of the
    queries with the key count in place of the last axis. *)
Definition expected_mask_size (query keys : tensor R) : list nat :=
  removelast (size query) ++ [axis_from_end 1 keys].

(** Number of trailing axes of the mask the comparison reads. *)
Definition mask_axes_needed (query : tensor R) : nat :=
  if 2 <=? ndim query then 2 else 1.

(** The outputs of successive [step] calls on [inputs], from [state]. *)
Fixpoint decode (self : AttentionLayer.t) (state : tensor R) (inputs : list (tensor R))
  : result (list (tensor R)) :=
  match inputs with
  | [] => Ok []
  | inp :: rest =>
      so <- MaskedSelfAttentionLayer.step self state inp ;;
      outputs <- decode self (fst so) rest ;;
      Ok (snd so :: outputs)
  end.

(** [x / t] for a positive [t]. *)
Definition xscale (t : R) (x : xreal) : xreal :=
  match x with
  | NInf => NInf
  | Fin r => Fin (r / t)
  end.

(** Row [i] of the logits of [forward]: the scores of query [q] against the
    keys [K], those of the keys after position [i] replaced by [-inf]. *)
Definition masked_row (d : nat) (q : list R) (K : list (list R)) (i : nat) : list xreal :=
  map2 (fun x (b : bool) => if b then NInf else Fin x)
       (map (fun a => (a / sqrt (INR d))%R) (map (dot q) K))
       (map (fun j => i <? j) (seq 0 (length K))).

(** The softmax of that row at temperature 1. *)
Definition masked_weights (d : nat) (q : list R) (K : list (list R)) (i : nat) : list R :=
  let l := map (xscale 1) (masked_row d q K i) in
  let s := rsum (map xexp l) in
  map (fun x => (xexp x / s)%R) l.

(** Attention weights of one query over the keys [K], no key excluded. *)
Definition weights_of (d : nat) (q : list R) (K : list (list R)) : list R :=
  let l := map (fun k => (dot q k / sqrt (INR d) / 1)%R) K in
  let s := rsum (map exp l) in
  map (fun x => (exp x / s)%R) l.

(** What [step] returns for the input [x] after the inputs [P]. *)
Definition step_output (self : AttentionLayer.t) (P : list (list R)) (x : list R)
  : list R :=
  let d := dims self in
  let seen := P ++ [x] in
  let w := weights_of d (mv (rows_of (W_Q self)) x) (map (mv (rows_of (W_K self))) seen) in
  vadd (map (dot w) (columns d (map (mv (rows_of (W_V self))) seen))) x.

(** The sizes [RNN.__init__] gives the parameters. *)
Definition RNN_wf (self : RNN.t) : Prop :=
  exists hi hh bv,
    RNN.W_hi self = T2 (RNN.dims self) hi /\
    RNN.W_hh self = T2 (RNN.dims self) hh /\
    RNN.b self = T1 bv /\
    length hi = RNN.dims self /\ length hh = RNN.dims self /\
    length bv = RNN.dims self /\
    Forall (fun row => length row = RNN.dims self) hi /\
    Forall (fun row => length row = RNN.dims self) hh.

(** ** Vocabulary of the further properties *)

(** The state after reading [x] in state [h]: [tanh(W_hi x + W_hh h + b)]. *)
Definition rnn_next (self : RNN.t) (h x : list R) : list R :=
  map tanh (vadd (vadd (mv (rows_of (RNN.W_hi self)) x) (mv (rows_of (RNN.W_hh self)) h))
                 (coords (RNN.b self))).

(** The outputs of the recurrence over the inputs [X], from state [h]. *)
Fixpoint rnn_outputs (self : RNN.t) (h : list R) (X : list (list R)) : list (list R) :=
  match X with
  | [] => []
  | x :: X' => vadd (rnn_next self h x) x :: rnn_outputs self (rnn_next self h x) X'
  end.

(** The sizes [RNN.__init__] gives, the initial state included. *)
Definition RNN_sized (self : RNN.t) : Prop :=
  RNN_wf self /\ length (coords (RNN.h0 self)) = RNN.dims self /\
  RNN.h0 self = T1 (coords (RNN.h0 self)).

(** Attention weights of one query over the keys [K] at temperature [temp]. *)
Definition weights_temp (d : nat) (temp : R) (q : list R) (K : list (list R)) : list R :=
  let l := map (fun k => (dot q k / sqrt (INR d) / temp)%R) K in
  let s := rsum (map exp l) in
  map (fun x => (exp x / s)%R) l.

(** The context vector of one query: the values weighted by [weights_temp]. *)
Definition attend (d dv : nat) (temp : R) (q : list R) (K V : list (list R)) : list R :=
  map (dot (weights_temp d temp q K)) (columns dv V).

(** The sizes [LinearLayer.__init__] gives for [input_dims = i] and
    [output_dims = o]. *)
Definition LinearLayer_sized (self : LinearLayer.t) (i o : nat) : Prop :=
  exists w bv,
    LinearLayer.W self = T2 i w /\ LinearLayer.b self = T1 bv /\
    length w = o /\ length bv = o /\
    (LinearLayer.residual self = true -> i = o).

(** [W x + b], plus [x] for a residual layer. *)
Definition linear (self : LinearLayer.t) (x : list R) : list R :=
  let y := vadd (mv (rows_of (LinearLayer.W self)) x) (coords (LinearLayer.b self)) in
  if LinearLayer.residual self then vadd y x else y.

(** The sizes [SoftmaxLayer.__init__] gives. *)
Definition SoftmaxLayer_sized (self : SoftmaxLayer.t) (i o : nat) : Prop :=
  exists w, SoftmaxLayer.W self = T2 i w /\ length w = o.

Definition relu (v : list R) : list R := map (fun x => Rmax x 0) v.

Definition example_linear : LinearLayer.t :=
  {| LinearLayer.residual := true;
     LinearLayer.W := normal_matrix 2 2 (fun i j => INR (i + j));
     LinearLayer.b := normal_vector 2 (fun i => INR i) |}.

Definition example_softmax : SoftmaxLayer.t :=
  SoftmaxLayer.init 2 3 (fun i j => INR (i + j)).

Definition example_embedding : Embedding.t :=
  {| Embedding.W := T2 2 [[1; 0]; [0; 1]; [0; 0]]%R |}.

(** ** Layers used in the examples *)

Definition example_layer : AttentionLayer.t :=
  AttentionLayer.init 2 (fun i j => INR (i + j)) (fun i j => INR (i * j))
    (fun _ _ => 1%R).

Definition example_rnn : RNN.t :=
  RNN.init 2 (fun _ => 0%R) (fun i j => INR (i + j)) (fun _ _ => 1%R) (fun _ => 0%R).

(** * Proofs *)

Unset Implicit Arguments.

(** ** The result monad and lists *)

Lemma mapM_ok {A B : Type} (f : A -> result B) (g : A -> B) (l : list A) :
  (forall a, In a l -> f a = Ok (g a)) -> mapM f l = Ok (map g l).
Proof.
  induction l as [|a l IH]; intros H; simpl.
  - reflexivity.
  - rewrite (H a (or_introl eq_refl)). simpl.
    rewrite IH by (intros; apply H; now right). reflexivity.
Qed.

Lemma map2_map_l {A A' B C : Type} (f : A' -> B -> C) (g : A -> A') l1 l2 :
  map2 f (map g l1) l2 = map2 (fun a b => f (g a) b) l1 l2.
Proof.
  revert l2; induction l1 as [|a l1 IH]; intros [|b l2]; simpl; try reflexivity.
  now rewrite IH.
Qed.

Lemma map2_map_r {A B B' C : Type} (f : A -> B' -> C) (g : B -> B') l1 l2 :
  map2 f l1 (map g l2) = map2 (fun a b => f a (g b)) l1 l2.
Proof.
  revert l2; induction l1 as [|a l1 IH]; intros [|b l2]; simpl; try reflexivity.
  now rewrite IH.
Qed.

Lemma map2_diag {A C : Type} (f : A -> A -> C) l :
  map2 f l l = map (fun a => f a a) l.
Proof. induction l as [|a l IH]; simpl; [reflexivity | now rewrite IH]. Qed.

Lemma map2_app {A B C : Type} (f : A -> B -> C) l1 l1' l2 l2' :
  length l1 = length l2 ->
  map2 f (l1 ++ l1') (l2 ++ l2') = map2 f l1 l2 ++ map2 f l1' l2'.
Proof.
  revert l2; induction l1 as [|a l1 IH]; intros [|b l2] H; simpl in *; try discriminate.
  - reflexivity.
  - f_equal. apply IH. now injection H.
Qed.

Lemma map2_length {A B C : Type} (f : A -> B -> C) l1 l2 :
  length l1 = length l2 -> length (map2 f l1 l2) = length l1.
Proof.
  revert l2; induction l1 as [|a l1 IH]; intros [|b l2] H; simpl in *; try discriminate.
  - reflexivity.
  - f_equal. apply IH. now injection H.
Qed.

Lemma map_nth_seq {A : Type} (d : A) (l : list A) :
  map (fun i => nth i l d) (seq 0 (length l)) = l.
Proof.
  induction l as [|a l IH]; simpl; [reflexivity|].
  f_equal. rewrite <- seq_shift, map_map. exact IH.
Qed.

(** ** [bmv] *)

Lemma col_single {A : Type} (x : list A) : col 0 (map single x) = x.
Proof.
  unfold col. induction x as [|a x IH]; simpl; [reflexivity | now f_equal].
Qed.

Lemma columns_single {A : Type} (x : list A) : columns 1 (map single x) = [x].
Proof. unfold columns; simpl. now rewrite col_single. Qed.

Lemma concat_map_single {A B : Type} (f : A -> B) (l : list A) :
  concat (map (fun a => [f a]) l) = map f l.
Proof. induction l as [|a l IH]; simpl; [reflexivity | now rewrite IH]. Qed.

Lemma unsqueeze_last_T1 {A : Type} (v : list A) :
  unsqueeze (-1) (T1 v) = Ok (T2 1 (map single v)).
Proof. reflexivity. Qed.

Lemma unsqueeze_last_T2 {A : Type} c (rows : list (list A)) :
  unsqueeze (-1) (T2 c rows) = Ok (T3 c 1 (map (map single) rows)).
Proof. reflexivity. Qed.

Lemma unsqueeze_0_T1 {A : Type} (v : list A) :
  unsqueeze 0 (T1 v) = Ok (T2 (length v) [v]).
Proof. reflexivity. Qed.

Lemma unsqueeze_1_T1 {A : Type} (v : list A) :
  unsqueeze 1 (T1 v) = Ok (T2 1 (map single v)).
Proof. reflexivity. Qed.

Lemma concat_mm_single (w : list (list R)) (x : list R) :
  concat (mm w [x]) = mv w x.
Proof. unfold mm, mv. induction w as [|r w IH]; simpl; [reflexivity | now f_equal]. Qed.

Lemma bmv_vector (n : nat) (w : list (list R)) (x : list R) :
  length x = n -> bmv (T2 n w) (T1 x) = Ok (T1 (mv w x)).
Proof.
  intros Hx. unfold bmv. rewrite unsqueeze_last_T1. cbn [bind matmul].
  rewrite length_map, Hx, Nat.eqb_refl. cbn [bind squeeze_last Nat.eqb].
  now rewrite columns_single, concat_mm_single.
Qed.

Lemma bmv_batch (n : nat) (w : list (list R)) (xs : list (list R)) :
  bmv (T2 n w) (T2 n xs) = Ok (T2 (length w) (map (mv w) xs)).
Proof.
  unfold bmv. rewrite unsqueeze_last_T2. cbn [bind matmul].
  rewrite Nat.eqb_refl. cbn [bind squeeze_last Nat.eqb].
  do 2 f_equal. rewrite !map_map.
  apply map_ext; intros x.
  now rewrite columns_single, concat_mm_single.
Qed.

(** ** Broadcasting between tensors of one size *)

Lemma broadcast_rev_same (s : list nat) : broadcast_rev s s = Some s.
Proof.
  induction s as [|a s IH]; simpl; [reflexivity|].
  now rewrite IH, Nat.eqb_refl.
Qed.

Lemma broadcast_shapes_same (s : list nat) : broadcast_shapes s s = Some s.
Proof.
  unfold broadcast_shapes. rewrite broadcast_rev_same. simpl.
  now rewrite rev_involutive.
Qed.

Lemma shape_eqb_refl (s : list nat) : shape_eqb s s = true.
Proof. unfold shape_eqb. now destruct (list_eq_dec Nat.eq_dec s s). Qed.

Lemma stretch_same {A : Type} (n : nat) (l : list A) :
  length l = n -> stretch n l = l.
Proof.
  intros H. destruct l as [|x [|y l]]; simpl in *; subst; reflexivity.
Qed.

Lemma map_stretch_same {A : Type} (c : nat) (rows : list (list A)) :
  Forall (fun row => length row = c) rows -> map (stretch c) rows = rows.
Proof.
  induction 1 as [|row rows H _ IH]; simpl; [reflexivity|].
  now rewrite IH, stretch_same.
Qed.

Lemma expand_to_T1 {A : Type} (n : nat) (v : list A) :
  length v = n -> expand_to [n] (T1 v) = Ok (T1 v).
Proof.
  intros H. unfold expand_to. cbn [size]. rewrite H, broadcast_shapes_same, shape_eqb_refl.
  cbn. now rewrite stretch_same, app_nil_r.
Qed.

Lemma expand_to_T2 {A : Type} (n c : nat) (rows : list (list A)) :
  length rows = n -> Forall (fun row => length row = c) rows ->
  expand_to [n; c] (T2 c rows) = Ok (T2 c rows).
Proof.
  intros H Hwf. unfold expand_to. cbn [size].
  rewrite H, broadcast_shapes_same, shape_eqb_refl.
  cbn. rewrite map_stretch_same by assumption.
  now rewrite stretch_same, app_nil_r.
Qed.

Lemma broadcast2_T1 {A B C : Type} (f : A -> B -> C) (u : list A) (v : list B) :
  length u = length v -> broadcast2 f (T1 u) (T1 v) = Ok (T1 (map2 f u v)).
Proof.
  intros H. unfold broadcast2. cbn [size]. rewrite H, broadcast_shapes_same.
  rewrite expand_to_T1 by assumption. rewrite expand_to_T1 by reflexivity.
  reflexivity.
Qed.

Lemma broadcast2_T2 {A B C : Type} (f : A -> B -> C) (c : nat)
  (a : list (list A)) (b : list (list B)) :
  length a = length b ->
  Forall (fun row => length row = c) a -> Forall (fun row => length row = c) b ->
  broadcast2 f (T2 c a) (T2 c b) = Ok (T2 c (map2 (map2 f) a b)).
Proof.
  intros H Ha Hb. unfold broadcast2. cbn [size]. rewrite H, broadcast_shapes_same.
  rewrite expand_to_T2 by assumption. rewrite expand_to_T2 by auto.
  reflexivity.
Qed.

Lemma add_T1 (u v : list R) :
  length u = length v -> add (T1 u) (T1 v) = Ok (T1 (vadd u v)).
Proof. apply broadcast2_T1. Qed.

Lemma add_T2 (c : nat) (a b : list (list R)) :
  length a = length b ->
  Forall (fun row => length row = c) a -> Forall (fun row => length row = c) b ->
  add (T2 c a) (T2 c b) = Ok (T2 c (map2 vadd a b)).
Proof. apply broadcast2_T2. Qed.

Lemma mv_length (w : list (list R)) (x : list R) : length (mv w x) = length w.
Proof. unfold mv. apply length_map. Qed.

Lemma vadd_length (u v : list R) : length u = length v -> length (vadd u v) = length u.
Proof. apply map2_length. Qed.

(** ** Sizes *)

Lemma getitem_last_1 {A : Type} (a : A) : getitem [a] (-1) = Ok a.
Proof. reflexivity. Qed.

Lemma getitem_last_2 {A : Type} (a b : A) : getitem [a; b] (-1) = Ok b.
Proof. reflexivity. Qed.

Lemma getitem_last_3 {A : Type} (a b c : A) : getitem [a; b; c] (-1) = Ok c.
Proof. reflexivity. Qed.

Lemma getitem_prev_2 {A : Type} (a b : A) : getitem [a; b] (-2) = Ok a.
Proof. reflexivity. Qed.

Lemma getitem_prev_3 {A : Type} (a b c : A) : getitem [a; b; c] (-2) = Ok b.
Proof. reflexivity. Qed.

Lemma getitem_1_2 {A : Type} (a b : A) : getitem [a; b] 1 = Ok b.
Proof. reflexivity. Qed.

Lemma seq_map_length {A : Type} (f : nat -> A) (n : nat) :
  length (map f (seq 0 n)) = n.
Proof. now rewrite length_map, length_seq. Qed.

Lemma normal_matrix_rows (rows cols : nat) (sample : nat -> nat -> R) :
  exists m, normal_matrix rows cols sample = T2 cols m /\ length m = rows /\
            Forall (fun row => length row = cols) m.
Proof.
  eexists; split; [reflexivity|]. split; [apply seq_map_length|].
  apply Forall_forall. intros row Hin. apply in_map_iff in Hin as [i [<- _]].
  apply seq_map_length.
Qed.

Lemma RNN_init_wf dims s_h0 s_hi s_hh s_b : RNN_wf (RNN.init dims s_h0 s_hi s_hh s_b).
Proof.
  destruct (normal_matrix_rows dims dims s_hi) as [hi [Ehi [Lhi Fhi]]].
  destruct (normal_matrix_rows dims dims s_hh) as [hh [Ehh [Lhh Fhh]]].
  exists hi, hh, (map s_b (seq 0 dims)). cbn [RNN.init RNN.W_hi RNN.W_hh RNN.b RNN.dims].
  repeat split; try assumption. apply seq_map_length.
Qed.

Lemma AttentionLayer_init_wf n s_Q s_K s_V :
  AttentionLayer.wf (AttentionLayer.init n s_Q s_K s_V).
Proof.
  destruct (normal_matrix_rows n n s_Q) as [q [Eq [Lq Fq]]].
  destruct (normal_matrix_rows n n s_K) as [k [Ek [Lk Fk]]].
  destruct (normal_matrix_rows n n s_V) as [v [Ev [Lv Fv]]].
  exists q, k, v. cbn [AttentionLayer.init W_Q W_K W_V dims].
  repeat split; assumption.
Qed.

(** ** [RNN.step] *)

(** C6 — for a state [s] and an input [x], both of size [dims], [RNN.step]
    returns the pair [(s', s' + x)] with [s' = tanh(W_hi x + W_hh s + b)]:
    the output is the new state plus the input, not the bare activation. *)
Theorem RNN_step_residual (self : RNN.t) (s x : list R) :
  RNN_wf self ->
  length s = RNN.dims self -> length x = RNN.dims self ->
  let s' := map tanh (vadd (vadd (mv (rows_of (RNN.W_hi self)) x)
                                 (mv (rows_of (RNN.W_hh self)) s))
                           (coords (RNN.b self))) in
  RNN.step self (T1 s) (T1 x) = Ok (T1 s', T1 (vadd s' x)).
Proof.
  intros (hi & hh & bv & Ehi & Ehh & Eb & Lhi & Lhh & Lb & _ & _) Ls Lx s'.
  subst s'. unfold RNN.step. rewrite Ehi, Ehh, Eb. cbn [size rows_of coords].
  rewrite !getitem_last_1. cbn [bind].
  rewrite Ls, Lx, Nat.eqb_refl. cbn [negb raise_if bind].
  rewrite !bmv_vector by assumption. cbn [bind].
  assert (L1 : length (mv hi x) = length (mv hh s)) by (rewrite !mv_length; congruence).
  rewrite add_T1 by exact L1. cbn [bind].
  assert (L2 : length (vadd (mv hi x) (mv hh s)) = length bv).
  { rewrite vadd_length by exact L1. rewrite mv_length. congruence. }
  rewrite add_T1 by exact L2. cbn [bind tmap].
  rewrite add_T1; [reflexivity|].
  rewrite length_map, vadd_length by exact L2.
  rewrite vadd_length by exact L1. rewrite mv_length. congruence.
Qed.

Lemma RNN_step_residual_witness :
  RNN.step example_rnn (T1 [1; 2]%R) (T1 [3; 4]%R) =
  Ok (T1 (map tanh (vadd (vadd (mv (rows_of (RNN.W_hi example_rnn)) [3; 4]%R)
                               (mv (rows_of (RNN.W_hh example_rnn)) [1; 2]%R))
                         (coords (RNN.b example_rnn)))),
      T1 (vadd (map tanh (vadd (vadd (mv (rows_of (RNN.W_hi example_rnn)) [3; 4]%R)
                                     (mv (rows_of (RNN.W_hh example_rnn)) [1; 2]%R))
                               (coords (RNN.b example_rnn))))
               [3; 4]%R)).
Proof.
  apply (RNN_step_residual example_rnn [1; 2]%R [3; 4]%R).
  - apply RNN_init_wf.
  - reflexivity.
  - reflexivity.
Defined.

(** ** [bmv], as the specification states it *)

(** C7 — for a weight matrix [w] of shape [(m, n)], [bmv] on a vector of
    shape [(n,)] returns the vector of shape [(m,)] whose i-th entry is the
    dot product of row i of [w] with the vector, and on a batch of shape
    [(b, n)] the [(b, m)] result of applying that map to every batch row. *)
Theorem bmv_rowwise_dot (m n : nat) (w : list (list R)) :
  length w = m -> Forall (fun row => length row = n) w ->
  (forall x, length x = n ->
     let y := map (fun row => dot row x) w in
     bmv (T2 n w) (T1 x) = Ok (T1 y) /\ size (T1 y) = [m]) /\
  (forall xs, Forall (fun x => length x = n) xs ->
     let ys := map (fun x => map (fun row => dot row x) w) xs in
     bmv (T2 n w) (T2 n xs) = Ok (T2 m ys) /\
     size (T2 m ys) = [length xs; m] /\ Torch.wf (T2 m ys)).
Proof.
  intros Hm Hw. split.
  - intros x Hx y. split.
    + now apply bmv_vector.
    + subst y. cbn. now rewrite length_map, Hm.
  - intros xs Hxs ys. split; [|split].
    + rewrite bmv_batch, Hm. reflexivity.
    + subst ys. cbn. now rewrite length_map.
    + subst ys. cbn. apply Forall_forall. intros row Hin.
      apply in_map_iff in Hin as [x [<- _]]. now rewrite length_map.
Qed.

Lemma bmv_rowwise_dot_witness :
  bmv (T2 2 [[1; 2]; [3; 4]; [5; 6]]%R) (T1 [1; 1]%R) =
    Ok (T1 [dot [1; 2] [1; 1]; dot [3; 4] [1; 1]; dot [5; 6] [1; 1]]%R) /\
  bmv (T2 2 [[1; 2]; [3; 4]; [5; 6]]%R) (T2 2 [[1; 0]; [0; 1]]%R) =
    Ok (T2 3 [[dot [1; 2] [1; 0]; dot [3; 4] [1; 0]; dot [5; 6] [1; 0]];
              [dot [1; 2] [0; 1]; dot [3; 4] [0; 1]; dot [5; 6] [0; 1]]]%R).
Proof.
  assert (Hw : Forall (fun row => length row = 2) [[1; 2]; [3; 4]; [5; 6]]%R)
    by (repeat constructor).
  destruct (bmv_rowwise_dot 3 2 [[1; 2]; [3; 4]; [5; 6]]%R eq_refl Hw) as [Hv Hb].
  split.
  - apply (Hv [1; 1]%R eq_refl).
  - apply (Hb [[1; 0]; [0; 1]]%R). repeat constructor.
Defined.

(** ** [MaskedSelfAttentionLayerTemp.step] *)

(** C9 — [MaskedSelfAttentionLayerTemp.step] computes the same new state and
    the same output as [MaskedSelfAttentionLayer.step] with the same
    parameters: the [1/n^3] temperature is used by [forward] only. *)
Theorem Temp_step_is_step (self : AttentionLayer.t) (prev_inps inp : tensor R) :
  MaskedSelfAttentionLayerTemp.step self prev_inps inp =
  MaskedSelfAttentionLayer.step self prev_inps inp.
Proof. reflexivity. Qed.

(** ** [Embedding.forward] *)

Lemma getitem_negative {A : Type} (l : list A) (i : Z) :
  (- Z.of_nat (length l) <= i < 0)%Z ->
  exists a, nth_error l (Z.to_nat (Z.of_nat (length l) + i)) = Some a /\
            getitem l i = Ok a /\
            getitem l (Z.of_nat (length l) + i) = Ok a.
Proof.
  intros Hi. unfold getitem.
  destruct (nth_error l (Z.to_nat (Z.of_nat (length l) + i))) as [a|] eqn:E.
  - exists a. split; [reflexivity|].
    assert (H1 : (i <? 0)%Z = true) by (apply Z.ltb_lt; lia).
    assert (H2 : (Z.of_nat (length l) + i <? 0)%Z = false) by (apply Z.ltb_ge; lia).
    rewrite H1, H2. rewrite (Z.add_comm i).
    assert (H3 : ((0 <=? Z.of_nat (length l) + i)
                  && (Z.of_nat (length l) + i <? Z.of_nat (length l)))%Z = true).
    { apply andb_true_iff. split; [apply Z.leb_le | apply Z.ltb_lt]; lia. }
    rewrite H3, E. split; reflexivity.
  - exfalso. apply nth_error_None in E. lia.
Qed.

(** C10 — [Embedding.forward] makes no range check on the id: an integer id
    with [-vocab_size <= id < 0] does not raise; the call returns the
    normalized row [vocab_size + id] of the table, the row indexed from the
    end, exactly as the id [vocab_size + id] does. *)
Theorem Embedding_negative_id (self : Embedding.t) (c : nat) (rows : list (list R))
  (id : Z) :
  Embedding.W self = T2 c rows ->
  (- Z.of_nat (length rows) <= id < 0)%Z ->
  exists row,
    nth_error rows (Z.to_nat (Z.of_nat (length rows) + id)) = Some row /\
    Embedding.forward self (PyInt id) = Ok (T1 (normalize_row row)) /\
    Embedding.forward self (PyInt (Z.of_nat (length rows) + id))
      = Ok (T1 (normalize_row row)).
Proof.
  intros HW Hid. destruct (getitem_negative rows id Hid) as [row [Hn [Hg Hg']]].
  exists row. split; [exact Hn|].
  unfold Embedding.forward, Embedding.lookup. rewrite HW. cbn.
  rewrite Hg, Hg'. cbn. split; reflexivity.
Qed.

Lemma Embedding_negative_id_witness :
  Embedding.forward {| Embedding.W := T2 2 [[3; 4]; [0; 5]; [1; 0]]%R |} (PyInt (-2))
    = Ok (T1 (normalize_row [0; 5]%R)).
Proof.
  destruct (Embedding_negative_id {| Embedding.W := T2 2 [[3; 4]; [0; 5]; [1; 0]]%R |}
              2 [[3; 4]; [0; 5]; [1; 0]]%R (-2)%Z eq_refl)
    as [row [Hn [Hf _]]].
  - cbn. lia.
  - cbn in Hn. injection Hn as <-. exact Hf.
Defined.

Lemma Embedding_rejects_other_dtypes (self : Embedding.t) (dt : dtype) :
  is_int32_or_int64 dt = false ->
  (forall t, Embedding.forward self (PyFloatTensor dt t)
             = Raise (TypeError "input should be an integer or tensor of integers")) /\
  (forall t, Embedding.forward self (PyIntTensor dt t)
             = Raise (TypeError "input should be an integer or tensor of integers")).
Proof.
  intros H. split; intros t; unfold Embedding.forward; cbn; rewrite H; reflexivity.
Qed.

(** C5 — a Python float is neither an int nor a tensor of integral dtype,
    yet [Embedding.forward] does not answer it with a [TypeError]: the guard
    reads [inp.dtype], which a float does not have, and the call ends in an
    [AttributeError]. *)
Theorem Embedding_float_id_AttributeError (self : Embedding.t) (x : R) :
  Embedding.forward self (PyFloat x) = Raise AttributeError /\
  is_TypeError (Embedding.forward self (PyFloat x)) = false.
Proof. split; reflexivity. Qed.

(** ** The mask checks of [attention] *)

(** C3 — two queries, one key and a mask with a single axis: the mask's
    trailing sizes do not match (2, 1), yet the call does not end in the
    [TypeError("Mask has wrong size")] of the check.  The check itself reads
    [mask.size()[-2]], which this mask does not have, and the call ends in an
    [IndexError]. *)
Lemma attention_short_mask_IndexError :
  trailing_match (T2 1 [[1]; [1]]%R) (T2 1 [[1%R]]) (T1 [false]) = false /\
  attention (T2 1 [[1]; [1]]%R) (T2 1 [[1%R]]) (T2 1 [[1%R]]) (Some (T1 [false])) 1
    = Raise IndexError /\
  is_TypeError
    (attention (T2 1 [[1]; [1]]%R) (T2 1 [[1%R]]) (T2 1 [[1%R]]) (Some (T1 [false])) 1)
    = false.
Proof. repeat split; reflexivity. Qed.

(** A single query vector and a mask with two rows: only the last size of
    the mask is compared, the call passes the checks and fails when the mask
    is applied to the logits. *)
Lemma attention_single_query_mask_rows_unchecked :
  check_sizes (T1 [1%R]) (T2 1 [[1%R]]) (T2 1 [[1%R]]) (Some (T2 1 [[false]; [false]]))
  = Ok 1 /\
  attention (T1 [1%R]) (T2 1 [[1%R]]) (T2 1 [[1%R]]) (Some (T2 1 [[false]; [false]])) 1
  = Raise RuntimeError.
Proof. split; reflexivity. Qed.

Ltac size_checks :=
  repeat first
    [ rewrite getitem_last_1 | rewrite getitem_last_2 | rewrite getitem_last_3
    | rewrite getitem_prev_2 | rewrite getitem_prev_3 | rewrite getitem_1_2
    | progress cbn [bind raise_if negb size ndim length Nat.leb Nat.ltb] ].

(** X26 — for a query with at least one axis, keys and values with at
    least two, and a mask with at least two axes when the query is a batch
    (one when it is a single vector): if the mask's trailing sizes do not
    match (query-count, key-count), the size checks [attention] opens with
    raise a [TypeError], and so does [attention], nothing being computed. *)
Theorem attention_mask_mismatch_TypeError
  (query keys vals : tensor R) (mask : tensor bool) (temp : R) :
  1 <= ndim query -> 2 <= ndim keys -> 2 <= ndim vals ->
  mask_axes_needed query <= ndim mask ->
  trailing_match query keys mask = false ->
  exists msg,
    check_sizes query keys vals (Some mask) = Raise (TypeError msg) /\
    attention query keys vals (Some mask) temp = Raise (TypeError msg).
Proof.
  intros Hq Hk Hv Hm Ht. unfold attention.
  enough (exists msg, check_sizes query keys vals (Some mask) = Raise (TypeError msg))
    as [msg E] by (exists msg; rewrite E; split; reflexivity).
  unfold check_sizes.
  destruct query as [?|qv|qc qrows|qr qc qm]; cbn in Hq; try lia;
  destruct keys as [?|?|kc krows|kr kc km]; cbn in Hk; try lia;
  destruct vals as [?|?|vc vrows|vr vc vm]; cbn in Hv; try lia;
  destruct mask as [?|mv|mc mrows|mr mc mm]; cbn in Hm; try lia;
  cbn in Ht; size_checks;
  repeat match goal with
  | |- context [Nat.eqb ?a ?b] =>
      let E := fresh "E" in
      destruct (Nat.eqb a b) eqn:E; size_checks; try (eexists; reflexivity)
  end;
  try (eexists; reflexivity);
  try (rewrite ?andb_true_l, ?andb_false_iff in Ht; cbn in Ht; intuition congruence).
Qed.

Lemma attention_mask_mismatch_TypeError_witness :
  exists msg,
    check_sizes (T2 1 [[1]; [1]]%R) (T2 1 [[1%R]]) (T2 1 [[1%R]]) (Some (T2 1 [[false]]))
      = Raise (TypeError msg) /\
    attention (T2 1 [[1]; [1]]%R) (T2 1 [[1%R]]) (T2 1 [[1%R]]) (Some (T2 1 [[false]])) 1
      = Raise (TypeError msg).
Proof.
  apply attention_mask_mismatch_TypeError; cbn; solve [lia | reflexivity].
Defined.

(** ** Which calls check their arguments *)

(** C4, counterexample — [MaskedSelfAttentionLayer.step] (and the [Temp]
    variant) of a layer with [dims = 2], given a vector of size 3: no
    [TypeError]; the call fails in [torch.cat], or in the matrix product when
    the state has the size of the input, with a [RuntimeError]. *)
Lemma step_ill_sized_input_RuntimeError :
  MaskedSelfAttentionLayer.step example_layer
    (MaskedSelfAttentionLayer.start example_layer) (T1 [1; 2; 3]%R)
  = Raise RuntimeError /\
  MaskedSelfAttentionLayer.step example_layer (T2 3 []) (T1 [1; 2; 3]%R)
  = Raise RuntimeError /\
  MaskedSelfAttentionLayerTemp.step example_layer
    (MaskedSelfAttentionLayerTemp.start example_layer) (T1 [1; 2; 3]%R)
  = Raise RuntimeError /\
  is_TypeError (MaskedSelfAttentionLayer.step example_layer
                  (MaskedSelfAttentionLayer.start example_layer) (T1 [1; 2; 3]%R))
  = false.
Proof. repeat split; reflexivity. Qed.

Ltac by_cases_on_sizes :=
  size_checks;
  repeat match goal with
  | |- context [Nat.eqb ?a ?b] =>
      let E := fresh "E" in
      destruct (Nat.eqb a b) eqn:E;
      [ apply Nat.eqb_eq in E | apply Nat.eqb_neq in E ];
      size_checks; try reflexivity; try (exfalso; intuition lia)
  end;
  try reflexivity; try (exfalso; intuition lia).

Lemma RNN_step_checked (self : RNN.t) (state inp : tensor R) :
  1 <= ndim state -> 1 <= ndim inp ->
  axis_from_end 0 state <> RNN.dims self \/ axis_from_end 0 inp <> RNN.dims self ->
  is_TypeError (RNN.step self state inp) = true.
Proof.
  intros Hs Hi H. unfold RNN.step.
  destruct state; cbn in Hs; try lia; destruct inp; cbn in Hi; try lia;
    cbn in H; by_cases_on_sizes.
Qed.

Lemma RNN_forward_checked (self : RNN.t) (inputs : tensor R) :
  ndim inputs <> 2 \/ axis_from_end 0 inputs <> RNN.dims self ->
  is_TypeError (RNN.forward self inputs) = true.
Proof.
  intros H. unfold RNN.forward.
  destruct inputs; cbn in H; by_cases_on_sizes.
Qed.

Lemma LinearLayer_init_checked (input_dims output_dims : nat) s_W s_b :
  input_dims <> output_dims ->
  LinearLayer.init input_dims output_dims true s_W s_b =
  Raise (ValueError "A residual connection requires the same number of input and output dimensions.").
Proof.
  intros H. unfold LinearLayer.init. apply Nat.eqb_neq in H. now rewrite H.
Qed.

Lemma LinearLayer_forward_checked (self : LinearLayer.t) (inp : tensor R) :
  1 <= ndim (LinearLayer.W self) -> 1 <= ndim inp ->
  axis_from_end 0 inp <> axis_from_end 0 (LinearLayer.W self) ->
  is_TypeError (LinearLayer.forward self inp) = true.
Proof.
  intros Hw Hi H. unfold LinearLayer.forward.
  destruct (LinearLayer.W self); cbn in Hw; try lia; destruct inp; cbn in Hi; try lia;
    cbn in H; by_cases_on_sizes.
Qed.

Lemma SoftmaxLayer_forward_checked (self : SoftmaxLayer.t) (inp : tensor R) :
  1 <= ndim (SoftmaxLayer.W self) -> 1 <= ndim inp ->
  axis_from_end 0 inp <> axis_from_end 0 (SoftmaxLayer.W self) ->
  is_TypeError (SoftmaxLayer.forward self inp) = true.
Proof.
  intros Hw Hi H. unfold SoftmaxLayer.forward.
  destruct (SoftmaxLayer.W self); cbn in Hw; try lia; destruct inp; cbn in Hi; try lia;
    cbn in H; by_cases_on_sizes.
Qed.

Lemma SelfAttentionLayer_forward_checked (self : AttentionLayer.t) (inputs : tensor R) :
  ndim inputs < 2 \/ axis_from_end 0 inputs <> dims self ->
  is_TypeError (SelfAttentionLayer.forward self inputs) = true.
Proof.
  intros H. unfold SelfAttentionLayer.forward.
  destruct inputs; cbn in H; by_cases_on_sizes.
Qed.

Lemma HardSelfAttentionLayer_forward_checked (self : AttentionLayer.t)
  (inputs : tensor R) (gumbel : bool) (gumbels : tensor R) :
  ndim inputs < 2 \/ axis_from_end 0 inputs <> dims self ->
  is_TypeError (HardSelfAttentionLayer.forward self inputs gumbel gumbels) = true.
Proof.
  intros H. unfold HardSelfAttentionLayer.forward.
  destruct inputs; cbn in H; by_cases_on_sizes.
Qed.

Lemma MaskedSelfAttentionLayer_forward_checked (self : AttentionLayer.t)
  (inputs : tensor R) :
  ndim inputs < 2 \/ axis_from_end 0 inputs <> dims self ->
  is_TypeError (MaskedSelfAttentionLayer.forward self inputs) = true /\
  is_TypeError (MaskedSelfAttentionLayerTemp.forward self inputs) = true.
Proof.
  intros H.
  unfold MaskedSelfAttentionLayer.forward, MaskedSelfAttentionLayerTemp.forward.
  destruct inputs; cbn in H; split; by_cases_on_sizes.
Qed.

Lemma CrossAttentionLayer_forward_checked (self : AttentionLayer.t)
  (finputs einputs : tensor R) :
  ndim finputs < 2 \/ axis_from_end 0 finputs <> dims self \/
  (1 <= ndim einputs /\ axis_from_end 0 einputs <> dims self) ->
  is_TypeError (CrossAttentionLayer.forward self finputs einputs) = true.
Proof.
  intros H. unfold CrossAttentionLayer.forward.
  destruct finputs; destruct einputs; cbn in H; by_cases_on_sizes.
Qed.

(** C4, amended — the calls that do check on entry.  [RNN.step],
    [RNN.forward], [LinearLayer.forward], [SoftmaxLayer.forward] and the
    [forward] of the five attention layers raise a [TypeError] when the rank
    or the last size they compare is wrong (for arguments that have a last
    axis at all), and [LinearLayer]'s constructor raises a [ValueError] for a
    residual connection between different sizes.  The [step] methods of the
    masked self-attention layers are not among them. *)
Theorem checked_calls_fail_fast :
  (forall (self : RNN.t) state inp,
      1 <= ndim state -> 1 <= ndim inp ->
      axis_from_end 0 state <> RNN.dims self \/ axis_from_end 0 inp <> RNN.dims self ->
      is_TypeError (RNN.step self state inp) = true) /\
  (forall (self : RNN.t) inputs,
      ndim inputs <> 2 \/ axis_from_end 0 inputs <> RNN.dims self ->
      is_TypeError (RNN.forward self inputs) = true) /\
  (forall input_dims output_dims s_W s_b,
      input_dims <> output_dims ->
      LinearLayer.init input_dims output_dims true s_W s_b =
      Raise (ValueError "A residual connection requires the same number of input and output dimensions.")) /\
  (forall (self : LinearLayer.t) inp,
      1 <= ndim (LinearLayer.W self) -> 1 <= ndim inp ->
      axis_from_end 0 inp <> axis_from_end 0 (LinearLayer.W self) ->
      is_TypeError (LinearLayer.forward self inp) = true) /\
  (forall (self : SoftmaxLayer.t) inp,
      1 <= ndim (SoftmaxLayer.W self) -> 1 <= ndim inp ->
      axis_from_end 0 inp <> axis_from_end 0 (SoftmaxLayer.W self) ->
      is_TypeError (SoftmaxLayer.forward self inp) = true) /\
  (forall (self : AttentionLayer.t) inputs,
      ndim inputs < 2 \/ axis_from_end 0 inputs <> dims self ->
      is_TypeError (SelfAttentionLayer.forward self inputs) = true /\
      (forall gumbel gumbels,
          is_TypeError (HardSelfAttentionLayer.forward self inputs gumbel gumbels) = true) /\
      is_TypeError (MaskedSelfAttentionLayer.forward self inputs) = true /\
      is_TypeError (MaskedSelfAttentionLayerTemp.forward self inputs) = true) /\
  (forall (self : AttentionLayer.t) finputs einputs,
      ndim finputs < 2 \/ axis_from_end 0 finputs <> dims self \/
      (1 <= ndim einputs /\ axis_from_end 0 einputs <> dims self) ->
      is_TypeError (CrossAttentionLayer.forward self finputs einputs) = true).
Proof.
  split; [exact RNN_step_checked|].
  split; [exact RNN_forward_checked|].
  split; [exact LinearLayer_init_checked|].
  split; [exact LinearLayer_forward_checked|].
  split; [exact SoftmaxLayer_forward_checked|].
  split; [|exact CrossAttentionLayer_forward_checked].
  intros self inputs H. split; [|split].
  - now apply SelfAttentionLayer_forward_checked.
  - intros gumbel gumbels. now apply HardSelfAttentionLayer_forward_checked.
  - now apply MaskedSelfAttentionLayer_forward_checked.
Qed.

Lemma checked_calls_fail_fast_witness :
  is_TypeError (MaskedSelfAttentionLayer.forward example_layer (T2 3 [[1; 2; 3]]%R))
  = true /\
  is_TypeError (RNN.step example_rnn (T1 [1; 2]%R) (T1 [1; 2; 3]%R)) = true /\
  LinearLayer.init 2 3 true (fun _ _ => 1%R) (fun _ => 0%R) =
  Raise (ValueError "A residual connection requires the same number of input and output dimensions.").
Proof.
  destruct checked_calls_fail_fast as (Hstep & _ & Hinit & _ & _ & Hatt & _).
  split; [|split].
  - apply (Hatt example_layer (T2 3 [[1; 2; 3]]%R)). right. cbn. lia.
  - apply Hstep; cbn; lia.
  - apply Hinit. lia.
Defined.

(** ** A mask that excludes nothing *)

Lemma map2_all_false (l : list R) (m : list bool) :
  length l = length m -> forallb negb m = true ->
  map2 (fun x (b : bool) => if b then NInf else Fin x) l m = map Fin l.
Proof.
  revert m; induction l as [|x l IH]; intros [|b m] Hl Hm; simpl in *; try discriminate.
  - reflexivity.
  - apply andb_true_iff in Hm as [Hb Hm]. destruct b; [discriminate|].
    f_equal. apply IH; [now injection Hl | exact Hm].
Qed.

Lemma forallb_concat {A : Type} (p : A -> bool) (ls : list (list A)) :
  forallb p (concat ls) = forallb (forallb p) ls.
Proof.
  induction ls as [|l ls IH]; simpl; [reflexivity|].
  now rewrite forallb_app, IH.
Qed.

Lemma map2_rows_all_false (n : nat) (ls : list (list R)) (ms : list (list bool)) :
  length ls = length ms ->
  Forall (fun row => length row = n) ls -> Forall (fun row => length row = n) ms ->
  forallb (forallb negb) ms = true ->
  map2 (map2 (fun x (b : bool) => if b then NInf else Fin x)) ls ms = map (map Fin) ls.
Proof.
  revert ms; induction ls as [|l ls IH]; intros [|m ms] Hl Fl Fm Hm;
    simpl in *; try discriminate.
  - reflexivity.
  - apply andb_true_iff in Hm as [Hm1 Hm2].
    inversion Fl; inversion Fm; subst.
    rewrite map2_all_false by (assumption || congruence).
    f_equal. apply (IH ms); (assumption || now injection Hl).
Qed.

Lemma masked_fill_all_false_T1 (l : list R) (m : list bool) :
  length m = length l -> forallb negb m = true ->
  masked_fill_ninf (T1 l) (T1 m) = Ok (T1 (map Fin l)).
Proof.
  intros Hl Hm. unfold masked_fill_ninf. cbn [size].
  rewrite expand_to_T1 by exact Hl. cbn [bind zip_with].
  now rewrite map2_all_false.
Qed.

Lemma masked_fill_all_false_T2 (n : nat) (ls : list (list R)) (ms : list (list bool)) :
  length ms = length ls ->
  Forall (fun row => length row = n) ls -> Forall (fun row => length row = n) ms ->
  forallb (forallb negb) ms = true ->
  masked_fill_ninf (T2 n ls) (T2 n ms) = Ok (T2 n (map (map Fin) ls)).
Proof.
  intros Hl Fl Fm Hm. unfold masked_fill_ninf. cbn [size].
  rewrite expand_to_T2 by assumption. cbn [bind zip_with].
  now rewrite (map2_rows_all_false n).
Qed.

Lemma columns_length {A : Type} (c : nat) (rows : list (list A)) :
  length (columns c rows) = c.
Proof. unfold columns. apply seq_map_length. Qed.

Lemma mm_rows_length (a bcols : list (list R)) :
  Forall (fun row => length row = length bcols) (mm a bcols).
Proof.
  unfold mm. apply Forall_forall. intros row Hin.
  apply in_map_iff in Hin as [r [<- _]]. apply length_map.
Qed.

Lemma Forall_map_map_length {A B : Type} (f : A -> B) (n : nat) (ls : list (list A)) :
  Forall (fun row => length row = n) ls ->
  Forall (fun row => length row = n) (map (map f) ls).
Proof.
  intros H. apply Forall_forall. intros row Hin.
  apply in_map_iff in Hin as [r [<- Hr]]. rewrite length_map.
  exact (proj1 (Forall_forall _ _) H r Hr).
Qed.

(** C8 — for a query (one vector or a batch), keys, values and any
    temperature, [attention] with a mask of the expected size that is false
    at every position returns exactly what [attention] returns with
    [mask=None]. *)
Theorem attention_all_false_mask
  (query keys vals : tensor R) (mask : tensor bool) (temp : R) :
  1 <= ndim query <= 2 -> ndim keys = 2 ->
  size mask = expected_mask_size query keys -> Torch.wf mask ->
  all_false mask = true ->
  attention query keys vals (Some mask) temp = attention query keys vals None temp.
Proof.
  intros Hq Hk Hs Hwf Hf. unfold attention.
  destruct keys as [?|?|kc krows|? ? ?]; cbn in Hk; try lia.
  destruct query as [?|qv|qc qrows|? ? ?]; cbn in Hq; try lia.
  - (* one query vector *)
    destruct mask as [?|mv|? ?|? ? ?]; cbn in Hs; try discriminate.
    injection Hs as Hs.
    assert (Hc : check_sizes (T1 qv) (T2 kc krows) vals (Some (T1 mv))
                 = check_sizes (T1 qv) (T2 kc krows) vals None).
    { unfold check_sizes. size_checks. destruct (length qv =? kc); size_checks; [|reflexivity].
      destruct (getitem (size vals) (-2)) as [vn| |]; size_checks; try reflexivity.
      destruct (length krows =? vn); size_checks; [|reflexivity].
      now rewrite Hs, Nat.eqb_refl. }
    rewrite Hc. destruct (check_sizes (T1 qv) (T2 kc krows) vals None) as [d| |];
      cbn [bind]; try reflexivity.
    enough (E : masked_logits (T1 qv) (T2 kc krows) (Some (T1 mv)) d
                = masked_logits (T1 qv) (T2 kc krows) None d) by now rewrite E.
    unfold masked_logits. cbn [transpose_last2 bind matmul].
    destruct (length qv =? length (columns kc krows)); cbn [bind]; [|reflexivity].
    cbn [div_scalar tmap]. apply masked_fill_all_false_T1.
    + rewrite !length_map, columns_length. exact Hs.
    + cbn in Hf. now rewrite !app_nil_r in Hf.
  - (* a batch of queries *)
    destruct mask as [?|?|mc mrows|? ? ?]; cbn in Hs; try discriminate.
    injection Hs as Hs1 Hs2. subst mc. cbn in Hwf.
    assert (Hc : check_sizes (T2 qc qrows) (T2 kc krows) vals (Some (T2 (length krows) mrows))
                 = check_sizes (T2 qc qrows) (T2 kc krows) vals None).
    { unfold check_sizes. size_checks. destruct (qc =? kc); size_checks; [|reflexivity].
      destruct (getitem (size vals) (-2)) as [vn| |]; size_checks; try reflexivity.
      destruct (length krows =? vn); size_checks; [|reflexivity].
      now rewrite Hs1, !Nat.eqb_refl. }
    rewrite Hc. destruct (check_sizes (T2 qc qrows) (T2 kc krows) vals None) as [d| |];
      cbn [bind]; try reflexivity.
    enough (E : masked_logits (T2 qc qrows) (T2 kc krows) (Some (T2 (length krows) mrows)) d
                = masked_logits (T2 qc qrows) (T2 kc krows) None d) by now rewrite E.
    unfold masked_logits. cbn [transpose_last2 bind matmul].
    destruct (qc =? length (columns kc krows)); cbn [bind]; [|reflexivity].
    cbn [div_scalar tmap]. apply masked_fill_all_false_T2.
    + unfold mm. now rewrite !length_map.
    + apply Forall_map_map_length.
      pose proof (mm_rows_length qrows (columns (length krows) (columns kc krows))) as H.
      now rewrite columns_length in H.
    + exact Hwf.
    + cbn in Hf. rewrite app_nil_r, forallb_concat in Hf. exact Hf.
Qed.

Lemma attention_all_false_mask_witness :
  attention (T2 1 [[1]; [2]]%R) (T2 1 [[1]; [0]; [3]]%R) (T2 2 [[1; 0]; [0; 1]; [1; 1]]%R)
    (Some (T2 3 [[false; false; false]; [false; false; false]])) 2
  = attention (T2 1 [[1]; [2]]%R) (T2 1 [[1]; [0]; [3]]%R) (T2 2 [[1; 0]; [0; 1]; [1; 1]]%R)
      None 2.
Proof.
  apply attention_all_false_mask; cbn; try lia; try reflexivity.
  repeat constructor.
Defined.

(** ** [hardAttention] with [gumbel=False] *)

(** C2 — [hardAttention] with [gumbel=False] at two queries [[1], [1]], keys
    [[0], [1]] and values [[1, 0], [0, 1]].  Both queries prefer key 1, and
    the call returns the single vector [[1, 1]]: [torch.argmax] yields the
    indices [[1, 1]], which are multiplied with the values as if they were
    weights.  The result is not a row of the values, and it is one vector
    where two context vectors are documented. *)
Theorem hardAttention_argmax_not_one_hot (gumbels : tensor R) :
  hardAttention (T2 1 [[1]; [1]]%R) (T2 1 [[0]; [1]]%R) (T2 2 [[1; 0]; [0; 1]]%R)
    None false gumbels
  = Ok (T1 [1; 1]%R) /\
  ~ In [1; 1]%R [[1; 0]; [0; 1]]%R.
Proof.
  split.
  - unfold hardAttention.
    assert (E : check_sizes (T2 1 [[1]; [1]]%R) (T2 1 [[0]; [1]]%R)
                  (T2 2 [[1; 0]; [0; 1]]%R) None = Ok 1) by reflexivity.
    rewrite E. cbn. rewrite sqrt_1.
    match goal with
    | |- context [Rlt_dec ?a ?b] => destruct (Rlt_dec a b) as [_|Hn]
    end.
    + cbn [INR]. do 2 f_equal. f_equal; [lra|]. f_equal. lra.
    + exfalso. apply Hn. clear Hn.
      pose proof (exp_pos ((1 * 0 + 0) / 1)) as P0.
      pose proof (exp_pos ((1 * 1 + 0) / 1)) as P1.
      apply Rmult_lt_compat_r.
      * apply Rinv_0_lt_compat. lra.
      * apply exp_increasing. lra.
  - intros [H|[H|[]]]; injection H; intros; lra.
Qed.

(** The sibling branch on the input of [hardAttention_argmax_not_one_hot]:
    with [gumbel=True] (and a noise of zeros) the weights are one-hot rows and
    the call returns one value row per query. *)
Lemma hardAttention_gumbel_selects_rows :
  hardAttention (T2 1 [[1]; [1]]%R) (T2 1 [[0]; [1]]%R) (T2 2 [[1; 0]; [0; 1]]%R)
    None true (T2 2 [[0; 0]; [0; 0]]%R)
  = Ok (T2 2 [[0; 1]; [0; 1]]%R).
Proof.
  unfold hardAttention.
  assert (E : check_sizes (T2 1 [[1]; [1]]%R) (T2 1 [[0]; [1]]%R)
                (T2 2 [[1; 0]; [0; 1]]%R) None = Ok 1) by reflexivity.
  rewrite E. cbn. rewrite sqrt_1.
  match goal with
  | |- context [Rlt_dec ?x ?y] => set (u := x); set (v := y)
  end.
  destruct (Rlt_dec u v) as [_|Hn].
  - cbn. repeat f_equal; lra.
  - exfalso. apply Hn. subst u v. clear Hn.
    pose proof (exp_pos ((1 * 0 + 0) / 1)) as P0.
    pose proof (exp_pos ((1 * 1 + 0) / 1)) as P1.
    match goal with
    | |- (exp ?a / ?s < exp ?b / ?s)%R =>
        pose proof (exp_pos a) as Pa; pose proof (exp_pos b) as Pb
    end.
    apply Rmult_lt_compat_r; [apply Rinv_0_lt_compat; lra|].
    apply exp_increasing.
    apply Rmult_lt_compat_r; [apply Rinv_0_lt_compat, Rinv_0_lt_compat; lra|].
    apply Rplus_lt_compat_r.
    apply Rmult_lt_compat_r; [apply Rinv_0_lt_compat; lra|].
    apply exp_increasing. lra.
Qed.

(** ** Columns *)

Lemma col_cons {A : Type} (j : nat) (row : list A) (rows : list (list A)) :
  col j (row :: rows) = firstn 1 (skipn j row) ++ col j rows.
Proof. reflexivity. Qed.

Lemma col_app {A : Type} (j : nat) (a b : list (list A)) :
  col j (a ++ b) = col j a ++ col j b.
Proof. unfold col. apply flat_map_app. Qed.

Lemma firstn_1_skipn {A : Type} (j : nat) (row : list A) :
  j < length row -> exists a, firstn 1 (skipn j row) = [a].
Proof.
  revert j; induction row as [|a row IH]; intros j H; simpl in H; [lia|].
  destruct j as [|j].
  - exists a. reflexivity.
  - simpl. apply IH. lia.
Qed.

Lemma col_length {A : Type} (c j : nat) (rows : list (list A)) :
  Forall (fun row => length row = c) rows -> j < c ->
  length (col j rows) = length rows.
Proof.
  intros H Hj. induction H as [|row rows Hr _ IH]; [reflexivity|].
  rewrite col_cons, length_app, IH.
  destruct (firstn_1_skipn j row) as [a ->]; [lia | reflexivity].
Qed.

Lemma row_from_entries {A : Type} (row : list A) :
  flat_map (fun j => firstn 1 (skipn j row)) (seq 0 (length row)) = row.
Proof.
  induction row as [|a row IH]; [reflexivity|].
  cbn [length seq flat_map]. rewrite <- seq_shift, flat_map_concat_map, map_map.
  rewrite <- flat_map_concat_map. cbn [skipn firstn app]. now f_equal.
Qed.

Lemma flat_map_ext_on {A B : Type} (f g : A -> list B) (l : list A) :
  (forall a, In a l -> f a = g a) -> flat_map f l = flat_map g l.
Proof.
  induction l as [|a l IH]; intros H; simpl; [reflexivity|].
  rewrite (H a (or_introl eq_refl)), IH; [reflexivity|].
  intros b Hb. apply H. now right.
Qed.

Lemma col_map {A B : Type} (i : nat) (f : B -> list A) (l : list B) :
  col i (map f l) = flat_map (fun x => firstn 1 (skipn i (f x))) l.
Proof.
  unfold col. now rewrite !flat_map_concat_map, map_map.
Qed.

(** Column [i] of the columns is row [i]. *)
Lemma col_columns {A : Type} (c : nat) (rows : list (list A)) :
  Forall (fun row => length row = c) rows ->
  forall i, i < length rows -> col i (columns c rows) = nth i rows [].
Proof.
  intros H. unfold columns.
  induction H as [|row rows Hr Hrows IH]; intros i Hi; [simpl in Hi; lia|].
  rewrite col_map.
  destruct i as [|i].
  - cbn [nth]. etransitivity; [|apply (row_from_entries row)]. rewrite Hr.
    apply flat_map_ext_on. intros j Hj. apply in_seq in Hj.
    rewrite col_cons. destruct (firstn_1_skipn j row) as [a ->]; [lia | reflexivity].
  - cbn [nth]. rewrite <- IH by (simpl in Hi; lia). rewrite col_map.
    apply flat_map_ext_on. intros j Hj. apply in_seq in Hj.
    rewrite col_cons. destruct (firstn_1_skipn j row) as [a ->]; [lia | reflexivity].
Qed.

(** Transposing twice gives the matrix back. *)
Lemma columns_columns {A : Type} (c : nat) (rows : list (list A)) :
  Forall (fun row => length row = c) rows ->
  columns (length rows) (columns c rows) = rows.
Proof.
  intros H. unfold columns at 1.
  etransitivity; [|apply (map_nth_seq [] rows)].
  apply map_ext_in. intros i Hi. apply in_seq in Hi.
  apply col_columns; [exact H | lia].
Qed.

(** ** One [step] of the masked self-attention layer *)

Lemma mapM_xdiv_1 (l : list xreal) : mapM (xdiv 1) l = Ok (map (xscale 1) l).
Proof.
  apply mapM_ok. intros [|r] _; cbn; [|reflexivity].
  destruct (Rlt_dec 0 1) as [_|H]; [reflexivity | exfalso; lra].
Qed.

Lemma softmax_row_finite (l : list xreal) :
  forallb is_ninf l = false ->
  softmax_row l = Ok (map (fun x => (xexp x / rsum (map xexp l))%R) l).
Proof.
  intros H. destruct l as [|x l]; [discriminate|].
  unfold softmax_row. now rewrite H.
Qed.

Lemma cat_append (d : nat) (P : list (list R)) (x : list R) :
  cat [T2 d P; T2 d [x]] = Ok (T2 d (P ++ [x])).
Proof. cbn. now rewrite Nat.eqb_refl. Qed.

Lemma Forall_mv_length (w : list (list R)) (xs : list (list R)) :
  Forall (fun row => length row = length w) (map (mv w) xs).
Proof.
  apply Forall_forall. intros row Hin. apply in_map_iff in Hin as [x [<- _]].
  apply mv_length.
Qed.

Lemma attention_one_query (d dv : nat) (q : list R) (K V : list (list R)) :
  length q = d -> Forall (fun row => length row = d) K -> K <> [] ->
  length V = length K ->
  attention (T1 q) (T2 d K) (T2 dv V) None 1
  = Ok (T1 (map (dot (weights_of d q K)) (columns dv V))).
Proof.
  intros Lq FK HK LV. unfold attention, check_sizes. size_checks.
  rewrite Lq, Nat.eqb_refl. size_checks. rewrite LV, Nat.eqb_refl. size_checks.
  unfold masked_logits. cbn [transpose_last2 bind matmul].
  rewrite columns_length, Lq, Nat.eqb_refl. cbn [bind div_scalar tmap tmapM].
  rewrite columns_columns by exact FK.
  rewrite mapM_xdiv_1. cbn [bind softmax along_last].
  rewrite softmax_row_finite.
  2:{ destruct K as [|k K]; [congruence | reflexivity]. }
  cbn [bind matmul]. rewrite !length_map, LV, Nat.eqb_refl.
  do 3 f_equal. unfold weights_of. rewrite !map_map. reflexivity.
Qed.

Lemma step_eval (self : AttentionLayer.t) (P : list (list R)) (x : list R) :
  AttentionLayer.wf self ->
  Forall (fun row => length row = dims self) P -> length x = dims self ->
  MaskedSelfAttentionLayer.step self (T2 (dims self) P) (T1 x)
  = Ok (T2 (dims self) (P ++ [x]), T1 (step_output self P x)).
Proof.
  intros (wq & wk & wv & Eq & Ek & Ev & Lq & Lk & Lv & _ & _ & _) FP Lx.
  unfold MaskedSelfAttentionLayer.step, step_output.
  rewrite Eq, Ek, Ev. cbn [rows_of].
  rewrite unsqueeze_0_T1, Lx. cbn [bind]. rewrite cat_append. cbn [bind].
  rewrite bmv_vector by exact Lx. cbn [bind].
  rewrite !bmv_batch, Lk, Lv. cbn [bind].
  rewrite attention_one_query.
  - cbn [bind]. rewrite add_T1; [reflexivity|].
    now rewrite length_map, columns_length.
  - now rewrite mv_length.
  - pose proof (Forall_mv_length wk (P ++ [x])) as H. now rewrite Lk in H.
  - destruct P; discriminate.
  - now rewrite !length_map.
Qed.

Lemma decode_eval (self : AttentionLayer.t) (S P : list (list R)) :
  AttentionLayer.wf self ->
  Forall (fun row => length row = dims self) P ->
  Forall (fun row => length row = dims self) S ->
  decode self (T2 (dims self) P) (map T1 S)
  = Ok (map T1 (map (fun j => step_output self (P ++ firstn j S) (nth j S []))
                    (seq 0 (length S)))).
Proof.
  intros Hwf. revert P. induction S as [|x S IH]; intros P FP FS.
  - reflexivity.
  - inversion FS as [|? ? Lx FS']; subst.
    cbn [map decode]. rewrite step_eval by assumption. cbn [bind fst snd].
    rewrite IH; [|apply Forall_app; split; [assumption | now constructor] | assumption].
    cbn [bind length seq map firstn nth]. rewrite app_nil_r.
    do 3 f_equal. rewrite <- seq_shift, !map_map.
    apply map_ext. intros j. cbn [firstn nth]. now rewrite <- app_assoc.
Qed.

(** ** The causal mask *)

Lemma map2_repeat_l {A B C : Type} (f : A -> B -> C) (a : A) (l : list B) :
  map2 f (repeat a (length l)) l = map (f a) l.
Proof. induction l as [|b l IH]; simpl; [reflexivity | now f_equal]. Qed.

Lemma map2_map_repeat {A B C D : Type} (f : B -> C -> D) (g : A -> B) (y : C)
  (l : list A) :
  map2 f (map g l) (repeat y (length l)) = map (fun a => f (g a) y) l.
Proof. induction l as [|a l IH]; simpl; [reflexivity | now f_equal]. Qed.

Lemma map2_map_map {A B C D : Type} (f : B -> C -> D) (g : A -> B) (h : A -> C)
  (l : list A) :
  map2 f (map g l) (map h l) = map (fun a => f (g a) (h a)) l.
Proof. induction l as [|a l IH]; simpl; [reflexivity | now f_equal]. Qed.

Lemma causal_mask_eval (n : nat) :
  causal_mask n = Ok (T2 n (map (fun i => map (fun j => i <? j) (seq 0 n)) (seq 0 n))).
Proof.
  unfold causal_mask, arange. rewrite unsqueeze_1_T1. cbn [bind].
  unfold broadcast2. cbn [size]. rewrite length_map, length_seq.
  assert (Hs : broadcast_shapes [n; 1] [n] = Some [n; n]).
  { destruct n as [|[|n]]; reflexivity. }
  rewrite Hs.
  assert (Ha : expand_to [n; n] (T2 1 (map single (seq 0 n)))
               = Ok (T2 n (map (fun i => repeat i n) (seq 0 n)))).
  { unfold expand_to. cbn [size]. rewrite length_map, length_seq.
    assert (Hb : broadcast_shapes [n; 1] [n; n] = Some [n; n]).
    { unfold broadcast_shapes. cbn [rev app broadcast_rev].
      rewrite Nat.eqb_refl. destruct n as [|[|n]]; reflexivity. }
    rewrite Hb, shape_eqb_refl. cbn [negb as3]. unfold expand3. cbn [map].
    rewrite map_map. change (fun x => stretch n (single x)) with (fun x : nat => repeat x n).
    rewrite (stretch_same n) by apply seq_map_length.
    cbn [stretch repeat concat]. now rewrite app_nil_r. }
  assert (Hb : expand_to [n; n] (T1 (seq 0 n)) = Ok (T2 n (repeat (seq 0 n) n))).
  { unfold expand_to. cbn [size]. rewrite length_seq.
    assert (Hb : broadcast_shapes [n] [n; n] = Some [n; n]).
    { unfold broadcast_shapes. cbn [rev app broadcast_rev].
      now rewrite Nat.eqb_refl. }
    rewrite Hb, shape_eqb_refl. cbn [negb as3]. unfold expand3. cbn [map].
    rewrite (stretch_same n (seq 0 n)) by apply length_seq.
    cbn [stretch repeat concat]. now rewrite app_nil_r. }
  rewrite Ha, Hb. cbn [bind zip_with]. do 2 f_equal.
  pose proof (map2_map_repeat (map2 Nat.ltb) (fun i => repeat i n) (seq 0 n) (seq 0 n)) as H1.
  rewrite length_seq in H1. rewrite H1.
  apply map_ext. intros i.
  pose proof (map2_repeat_l Nat.ltb i (seq 0 n)) as H2.
  rewrite length_seq in H2. exact H2.
Qed.

(** ** A masked row is the row of the prefix, padded *)

Lemma map2_unmasked (i : nat) (l : list R) (js : list nat) :
  length l = length js -> (forall j, In j js -> j <= i) ->
  map2 (fun x (b : bool) => if b then NInf else Fin x) l (map (fun j => i <? j) js)
  = map Fin l.
Proof.
  revert js; induction l as [|x l IH]; intros [|j js] Hl Hj; simpl in *; try discriminate.
  - reflexivity.
  - assert (E : (i <? j) = false) by (apply Nat.ltb_ge; apply Hj; now left).
    rewrite E. f_equal. apply IH; [now injection Hl | intros; apply Hj; now right].
Qed.

Lemma map2_masked (i : nat) (l : list R) (js : list nat) :
  length l = length js -> (forall j, In j js -> i < j) ->
  map2 (fun x (b : bool) => if b then NInf else Fin x) l (map (fun j => i <? j) js)
  = repeat NInf (length js).
Proof.
  revert js; induction l as [|x l IH]; intros [|j js] Hl Hj; simpl in *; try discriminate.
  - reflexivity.
  - assert (E : (i <? j) = true) by (apply Nat.ltb_lt; apply Hj; now left).
    rewrite E. f_equal. apply IH; [now injection Hl | intros; apply Hj; now right].
Qed.

Lemma mask_zip (i : nat) (l : list R) :
  i < length l ->
  map2 (fun x (b : bool) => if b then NInf else Fin x) l
       (map (fun j => i <? j) (seq 0 (length l)))
  = map Fin (firstn (S i) l) ++ repeat NInf (length l - S i).
Proof.
  intros Hi.
  assert (Hseq : seq 0 (length l) = seq 0 (S i) ++ seq (S i) (length l - S i)).
  { rewrite <- seq_app. f_equal. lia. }
  rewrite Hseq, map_app.
  rewrite <- (firstn_skipn (S i) l) at 1.
  rewrite map2_app by (rewrite length_map, length_seq; apply firstn_length_le; lia).
  rewrite map2_unmasked.
  - f_equal. rewrite map2_masked.
    + now rewrite length_seq.
    + rewrite length_skipn, length_seq. reflexivity.
    + intros j Hj. apply in_seq in Hj. lia.
  - rewrite length_seq. apply firstn_length_le. lia.
  - intros j Hj. apply in_seq in Hj. lia.
Qed.

Lemma masked_row_split (d : nat) (q : list R) (K : list (list R)) (i : nat) :
  i < length K ->
  masked_row d q K i
  = map Fin (map (fun a => (a / sqrt (INR d))%R) (map (dot q) (firstn (S i) K)))
    ++ repeat NInf (length K - S i).
Proof.
  intros Hi. unfold masked_row.
  pose proof (mask_zip i (map (fun a => (a / sqrt (INR d))%R) (map (dot q) K))) as H.
  rewrite !length_map in H. rewrite H by exact Hi.
  now rewrite !firstn_map.
Qed.

Lemma rsum_app (l1 l2 : list R) : rsum (l1 ++ l2) = (rsum l1 + rsum l2)%R.
Proof.
  unfold rsum. induction l1 as [|a l1 IH]; simpl; [lra | rewrite IH; lra].
Qed.

Lemma rsum_zeros (k : nat) : rsum (repeat 0%R k) = 0%R.
Proof. unfold rsum. induction k as [|k IH]; simpl; [reflexivity | rewrite IH; lra]. Qed.

Lemma map_repeat {A B : Type} (f : A -> B) (a : A) (k : nat) :
  map f (repeat a k) = repeat (f a) k.
Proof. induction k as [|k IH]; simpl; [reflexivity | now f_equal]. Qed.

(** The weights of row [i] are those of the prefix, then zeros. *)
Lemma masked_weights_split (d : nat) (q : list R) (K : list (list R)) (i : nat) :
  i < length K ->
  masked_weights d q K i
  = weights_of d q (firstn (S i) K) ++ repeat 0%R (length K - S i).
Proof.
  intros Hi. unfold masked_weights, weights_of.
  rewrite masked_row_split by exact Hi.
  rewrite !map_app, !map_repeat, !map_map. cbn [xscale xexp].
  rewrite rsum_app, rsum_zeros, Rplus_0_r.
  f_equal. unfold Rdiv. now rewrite Rmult_0_l.
Qed.

Lemma masked_row_not_all_masked (d : nat) (q : list R) (K : list (list R)) (i : nat) :
  i < length K ->
  forallb is_ninf (map (xscale 1) (masked_row d q K i)) = false.
Proof.
  intros Hi. rewrite masked_row_split by exact Hi.
  destruct K as [|k K]; [simpl in Hi; lia | reflexivity].
Qed.

Lemma dot_zeros (k : nat) (c : list R) : dot (repeat 0%R k) c = 0%R.
Proof.
  revert c; induction k as [|k IH]; intros [|x c]; simpl; try reflexivity.
  rewrite IH. lra.
Qed.

Lemma dot_padded (w c1 c2 : list R) (k : nat) :
  length w = length c1 ->
  dot (w ++ repeat 0%R k) (c1 ++ c2) = dot w c1.
Proof.
  revert c1; induction w as [|a w IH]; intros [|x c1] H; simpl in *; try discriminate.
  - apply dot_zeros.
  - rewrite IH by (now injection H). reflexivity.
Qed.

Lemma Forall_firstn {A : Type} (P : A -> Prop) (n : nat) (l : list A) :
  Forall P l -> Forall P (firstn n l).
Proof.
  intros H. rewrite <- (firstn_skipn n l) in H. now apply Forall_app in H.
Qed.

(** Attending with the weights of row [i] over all the values is attending
    with the weights of the prefix over the values of the prefix. *)
Lemma context_of_prefix (d dv : nat) (q : list R) (K V : list (list R)) (i : nat) :
  i < length K -> length V = length K ->
  Forall (fun row => length row = dv) V ->
  map (dot (masked_weights d q K i)) (columns dv V)
  = map (dot (weights_of d q (firstn (S i) K))) (columns dv (firstn (S i) V)).
Proof.
  intros Hi LV FV. rewrite masked_weights_split by exact Hi.
  unfold columns. rewrite !map_map. apply map_ext_in. intros j Hj. apply in_seq in Hj.
  rewrite <- (firstn_skipn (S i) V) at 1. rewrite col_app.
  apply dot_padded.
  rewrite (col_length dv).
  - unfold weights_of. rewrite !length_map, !firstn_length_le by lia. reflexivity.
  - now apply Forall_firstn.
  - lia.
Qed.

(** ** [forward] of the masked self-attention layer, row by row *)

Lemma attention_causal (d dv : nat) (Q K V : list (list R)) :
  length Q = length K -> length V = length K ->
  Forall (fun row => length row = d) K ->
  attention (T2 d Q) (T2 d K) (T2 dv V)
    (Some (T2 (length K)
              (map (fun i => map (fun j => i <? j) (seq 0 (length K)))
                   (seq 0 (length K))))) 1
  = Ok (T2 dv (map (fun i => map (dot (masked_weights d (nth i Q []) K i)) (columns dv V))
                   (seq 0 (length K)))).
Proof.
  intros LQ LV FK.
  remember (map (fun i => map (fun j => i <? j) (seq 0 (length K))) (seq 0 (length K)))
    as M eqn:EM.
  assert (LM : length M = length K) by (subst M; apply seq_map_length).
  assert (FM : Forall (fun row => length row = length K) M).
  { subst M. apply Forall_forall. intros row Hin.
    apply in_map_iff in Hin as [i [<- _]]. apply seq_map_length. }
  unfold attention, check_sizes. size_checks.
  rewrite Nat.eqb_refl. size_checks. rewrite LV, Nat.eqb_refl. size_checks.
  rewrite LM, LQ, !Nat.eqb_refl. size_checks.
  unfold masked_logits. cbn [transpose_last2 bind matmul].
  rewrite columns_length, Nat.eqb_refl. cbn [bind div_scalar tmap].
  rewrite columns_columns by exact FK.
  unfold masked_fill_ninf. cbn [size].
  rewrite expand_to_T2; [| unfold mm; now rewrite LM, !length_map | exact FM].
  cbn [bind zip_with tmapM].
  assert (Hrows :
    map2 (map2 (fun x (b : bool) => if b then NInf else Fin x))
         (map (map (fun a => (a / sqrt (INR d))%R)) (mm Q K)) M
    = map (fun i => masked_row d (nth i Q []) K i) (seq 0 (length K))).
  { subst M. unfold mm. rewrite map_map.
    rewrite <- (map_nth_seq [] Q) at 1. rewrite LQ, map_map.
    rewrite map2_map_map. reflexivity. }
  rewrite Hrows.
  rewrite (mapM_ok _ (map (xscale 1))) by (intros; apply mapM_xdiv_1).
  cbn [bind softmax along_last]. rewrite map_map.
  rewrite (mapM_ok _ (fun row => map (fun x => (xexp x / rsum (map xexp row))%R) row)).
  2:{ intros row Hin. apply in_map_iff in Hin as [i [<- Hi]]. apply in_seq in Hi.
      apply softmax_row_finite. apply masked_row_not_all_masked. lia. }
  cbn [bind matmul]. rewrite LV, Nat.eqb_refl.
  unfold mm. rewrite !map_map. reflexivity.
Qed.


Lemma attention_causal_sized (d dv n : nat) (Q K V : list (list R)) :
  length Q = n -> length K = n -> length V = n ->
  Forall (fun row => length row = d) K ->
  attention (T2 d Q) (T2 d K) (T2 dv V)
    (Some (T2 n (map (fun i => map (fun j => i <? j) (seq 0 n)) (seq 0 n)))) 1
  = Ok (T2 dv (map (fun i => map (dot (masked_weights d (nth i Q []) K i)) (columns dv V))
                   (seq 0 n))).
Proof.
  intros LQ LK LV FK. rewrite <- LK.
  apply attention_causal; [congruence | congruence | exact FK].
Qed.

Lemma firstn_S_nth {A : Type} (d : A) (l : list A) (i : nat) :
  i < length l -> firstn (S i) l = firstn i l ++ [nth i l d].
Proof.
  revert i; induction l as [|a l IH]; intros i H; simpl in H; [lia|].
  destruct i as [|i]; [reflexivity|].
  cbn [firstn nth app]. rewrite <- IH by lia. reflexivity.
Qed.

Lemma map2_seq_nth {A B C : Type} (f : A -> B -> C) (g : nat -> A) (d : B) (l : list B) :
  map2 f (map g (seq 0 (length l))) l
  = map (fun i => f (g i) (nth i l d)) (seq 0 (length l)).
Proof.
  rewrite <- (map_nth_seq d l) at 2. apply map2_map_map.
Qed.

Lemma forward_eval (self : AttentionLayer.t) (X : list (list R)) :
  AttentionLayer.wf self ->
  Forall (fun row => length row = dims self) X ->
  MaskedSelfAttentionLayer.forward self (T2 (dims self) X)
  = Ok (T2 (dims self)
           (map (fun i => step_output self (firstn i X) (nth i X []))
                (seq 0 (length X)))).
Proof.
  intros (wq & wk & wv & Eq & Ek & Ev & Lq & Lk & Lv & Fq & Fk & Fv) FX.
  unfold MaskedSelfAttentionLayer.forward, step_output.
  rewrite Eq, Ek, Ev. cbn [rows_of]. size_checks.
  rewrite Nat.eqb_refl. size_checks.
  rewrite !bmv_batch, Lq, Lk, Lv. cbn [bind].
  rewrite causal_mask_eval. cbn [bind].
  rewrite (attention_causal_sized (dims self) (dims self) (length X));
    try apply length_map.
  2:{ pose proof (Forall_mv_length wk X) as H. now rewrite Lk in H. }
  cbn [bind]. rewrite add_T2.
  - do 2 f_equal. rewrite (map2_seq_nth _ _ []).
    apply map_ext_in. intros i Hi. apply in_seq in Hi.
    unfold vadd. f_equal.
    rewrite context_of_prefix.
    + rewrite !firstn_map, (firstn_S_nth [] X i) by lia.
      do 3 f_equal. rewrite (nth_indep _ [] (mv wq [])) by (rewrite length_map; lia).
      apply map_nth.
    + rewrite length_map. lia.
    + now rewrite !length_map.
    + pose proof (Forall_mv_length wv X) as H. now rewrite Lv in H.
  - now rewrite seq_map_length.
  - apply Forall_forall. intros row Hin. apply in_map_iff in Hin as [i [<- _]].
    now rewrite length_map, columns_length.
  - exact FX.
Qed.

Lemma firstn_seq_le (k a n : nat) : k <= n -> firstn k (seq a n) = seq a k.
Proof.
  revert a n; induction k as [|k IH]; intros a n H; [reflexivity|].
  destruct n as [|n]; [lia|]. cbn [seq firstn]. f_equal. apply IH. lia.
Qed.

(** ** Batch mode and incremental mode agree *)

(** C1 — for every sequence of [n] vectors of size [dims], [forward] on the
    whole sequence returns [n] output vectors, and for every position [i] the
    incremental run that starts from [start()] and feeds the inputs [0..i]
    one at a time through [step] yields the first [i + 1] of them, the last
    [step] giving output [i]. *)
Theorem forward_matches_incremental (self : AttentionLayer.t) (X : list (list R)) :
  AttentionLayer.wf self ->
  Forall (fun x => length x = dims self) X ->
  exists outs,
    MaskedSelfAttentionLayer.forward self (T2 (dims self) X)
      = Ok (T2 (dims self) outs) /\
    length outs = length X /\
    forall i, i < length X ->
      decode self (MaskedSelfAttentionLayer.start self) (map T1 (firstn (S i) X))
      = Ok (map T1 (firstn (S i) outs)).
Proof.
  intros Hwf FX.
  exists (map (fun i => step_output self (firstn i X) (nth i X [])) (seq 0 (length X))).
  split; [now apply forward_eval|]. split; [apply seq_map_length|].
  intros i Hi. unfold MaskedSelfAttentionLayer.start.
  rewrite decode_eval; [| exact Hwf | constructor | now apply Forall_firstn].
  do 2 f_equal.
  rewrite firstn_map, firstn_seq_le, firstn_length_le by lia.
  apply map_ext_in. intros j Hj. apply in_seq in Hj. cbn [app].
  rewrite firstn_firstn, Nat.min_l by lia.
  rewrite nth_firstn.
  assert (E : (j <? S i) = true) by (apply Nat.ltb_lt; lia).
  now rewrite E.
Qed.

Lemma forward_matches_incremental_witness :
  exists outs,
    MaskedSelfAttentionLayer.forward example_layer (T2 2 [[1; 0]; [0; 1]; [2; 3]]%R)
      = Ok (T2 2 outs) /\
    length outs = 3 /\
    forall i, i < 3 ->
      decode example_layer (MaskedSelfAttentionLayer.start example_layer)
        (map T1 (firstn (S i) [[1; 0]; [0; 1]; [2; 3]]%R))
      = Ok (map T1 (firstn (S i) outs)).
Proof.
  apply (forward_matches_incremental example_layer [[1; 0]; [0; 1]; [2; 3]]%R).
  - apply AttentionLayer_init_wf.
  - repeat constructor.
Defined.

(** * Further properties of the layers *)

(** ** [bmv] on arguments of the wrong size *)

(** X1 — [bmv] has no check of its own: a vector, or a batch of vectors,
    whose size is not the number of columns of the matrix makes the matrix
    product fail with a [RuntimeError]. *)
Theorem bmv_size_mismatch (n : nat) (w : list (list R)) :
  (forall x, length x <> n -> bmv (T2 n w) (T1 x) = Raise RuntimeError) /\
  (forall c xs, c <> n -> bmv (T2 n w) (T2 c xs) = Raise RuntimeError).
Proof.
  split.
  - intros x H. unfold bmv. rewrite unsqueeze_last_T1. cbn [bind matmul].
    rewrite length_map. apply Nat.eqb_neq in H. rewrite Nat.eqb_sym, H. reflexivity.
  - intros c xs H. unfold bmv. rewrite unsqueeze_last_T2. cbn [bind matmul].
    apply Nat.eqb_neq in H. rewrite Nat.eqb_sym, H. reflexivity.
Qed.

Lemma bmv_size_mismatch_witness :
  bmv (T2 2 [[1; 2]; [3; 4]]%R) (T1 [1; 2; 3]%R) = Raise RuntimeError /\
  bmv (T2 2 [[1; 2]; [3; 4]]%R) (T2 3 [[1; 2; 3]]%R) = Raise RuntimeError.
Proof.
  destruct (bmv_size_mismatch 2 [[1; 2]; [3; 4]]%R) as [Hv Hb]. split.
  - apply Hv. cbn. lia.
  - apply Hb. lia.
Defined.

(** ** [RNN.forward] *)

Lemma RNN_step_eval (self : RNN.t) (s x : list R) :
  RNN_wf self ->
  length s = RNN.dims self -> length x = RNN.dims self ->
  RNN.step self (T1 s) (T1 x) = Ok (T1 (rnn_next self s x), T1 (vadd (rnn_next self s x) x)).
Proof.
  intros (hi & hh & bv & Ehi & Ehh & Eb & Lhi & Lhh & Lb & _ & _) Ls Lx.
  unfold RNN.step, rnn_next. rewrite Ehi, Ehh, Eb. cbn [size rows_of coords].
  rewrite !getitem_last_1. cbn [bind].
  rewrite Ls, Lx, Nat.eqb_refl. cbn [negb raise_if bind].
  rewrite !bmv_vector by assumption. cbn [bind].
  assert (L1 : length (mv hi x) = length (mv hh s)) by (rewrite !mv_length; congruence).
  rewrite add_T1 by exact L1. cbn [bind].
  assert (L2 : length (vadd (mv hi x) (mv hh s)) = length bv).
  { rewrite vadd_length by exact L1. rewrite mv_length. congruence. }
  rewrite add_T1 by exact L2. cbn [bind tmap].
  rewrite add_T1; [reflexivity|].
  rewrite length_map, vadd_length by exact L2.
  rewrite vadd_length by exact L1. rewrite mv_length. congruence.
Qed.

Lemma rnn_next_length (self : RNN.t) (s x : list R) :
  RNN_wf self -> length (rnn_next self s x) = RNN.dims self.
Proof.
  intros (hi & hh & bv & Ehi & Ehh & Eb & Lhi & Lhh & Lb & _ & _).
  unfold rnn_next. rewrite Ehi, Ehh, Eb. cbn [rows_of coords].
  assert (L1 : length (mv hi x) = length (mv hh s)) by (rewrite !mv_length; congruence).
  assert (L2 : length (vadd (mv hi x) (mv hh s)) = length bv).
  { rewrite vadd_length by exact L1. rewrite mv_length. congruence. }
  rewrite length_map, vadd_length by exact L2. congruence.
Qed.

Lemma RNN_loop_eval (self : RNN.t) (X : list (list R)) :
  RNN_wf self -> Forall (fun x => length x = RNN.dims self) X ->
  forall h, length h = RNN.dims self ->
  RNN.loop self (T1 h) (map T1 X) = Ok (map T1 (rnn_outputs self h X)).
Proof.
  intros Hwf FX. induction FX as [|x X Lx _ IH]; intros h Lh.
  - reflexivity.
  - cbn [map RNN.loop rnn_outputs]. rewrite RNN_step_eval by assumption.
    cbn [bind fst snd]. rewrite IH by now apply rnn_next_length. reflexivity.
Qed.

Lemma rnn_outputs_sizes (self : RNN.t) (X : list (list R)) :
  RNN_wf self -> Forall (fun x => length x = RNN.dims self) X ->
  forall h,
  length (rnn_outputs self h X) = length X /\
  Forall (fun o => length o = RNN.dims self) (rnn_outputs self h X).
Proof.
  intros Hwf FX. induction FX as [|x X Lx _ IH]; intros h.
  - split; [reflexivity | constructor].
  - cbn [rnn_outputs length]. destruct (IH (rnn_next self h x)) as [IL IF].
    split; [now f_equal|]. constructor; [|exact IF].
    rewrite vadd_length; rewrite rnn_next_length; congruence.
Qed.

Lemma stack_vectors (c : nat) (v : list R) (vs : list (list R)) :
  Forall (fun o => length o = c) (v :: vs) ->
  stack (map T1 (v :: vs)) = Ok (T2 c (v :: vs)).
Proof.
  intros F. inversion F as [|? ? Lv Fvs]; subst.
  cbn [map stack].
  assert (E : forall l, Forall (fun o => length o = length v) l ->
                        mapM (@vec_of R (length v)) (map T1 l) = Ok l).
  { induction 1 as [|o l Lo _ IH]; [reflexivity|].
    cbn [map mapM]. unfold vec_of at 1. rewrite Lo, Nat.eqb_refl. cbn [bind].
    now rewrite IH. }
  change (T1 v :: map T1 vs) with (map T1 (v :: vs)).
  rewrite E by (constructor; [reflexivity | exact Fvs]). reflexivity.
Qed.

(** X2 — on a non-empty sequence of vectors of size [dims], [RNN.forward]
    returns as many output vectors of size [dims], output [i] being the state
    after input [i] plus input [i], the states following the recurrence
    [tanh(W_hi x + W_hh h + b)] from [h0]. *)
Theorem RNN_forward_is_recurrence (self : RNN.t) (X : list (list R)) :
  RNN_sized self -> X <> [] ->
  Forall (fun x => length x = RNN.dims self) X ->
  let outs := rnn_outputs self (coords (RNN.h0 self)) X in
  RNN.forward self (T2 (RNN.dims self) X) = Ok (T2 (RNN.dims self) outs) /\
  length outs = length X /\
  Forall (fun o => length o = RNN.dims self) outs.
Proof.
  intros (Hwf & Lh & Eh) HX FX. remember (coords (RNN.h0 self)) as h eqn:Eqh.
  intros outs.
  destruct (rnn_outputs_sizes self X Hwf FX h) as [Lo Fo].
  fold outs in Lo, Fo. split; [|split; assumption].
  unfold RNN.forward, RNN.start. size_checks. rewrite !Nat.eqb_refl. size_checks.
  cbn [iter bind]. rewrite Eh. rewrite RNN_loop_eval by (assumption || congruence).
  cbn [bind]. fold outs. destruct outs as [|o outs'].
  - destruct X; [congruence | discriminate].
  - now apply stack_vectors.
Qed.

Lemma RNN_forward_is_recurrence_witness :
  RNN.forward example_rnn (T2 2 [[1; 2]; [3; 4]]%R)
  = Ok (T2 2 (rnn_outputs example_rnn (coords (RNN.h0 example_rnn)) [[1; 2]; [3; 4]]%R)).
Proof.
  apply (RNN_forward_is_recurrence example_rnn [[1; 2]; [3; 4]]%R).
  - split; [apply RNN_init_wf | split; reflexivity].
  - discriminate.
  - repeat constructor.
Defined.

(** X3 — on a sequence of no vectors (a tensor of size [(0, dims)]),
    [RNN.forward] passes its checks, runs the loop zero times and fails in
    [torch.stack], which refuses an empty list, with a [RuntimeError]. *)
Theorem RNN_forward_empty_sequence (self : RNN.t) :
  RNN.forward self (T2 (RNN.dims self) []) = Raise RuntimeError.
Proof.
  unfold RNN.forward. size_checks. rewrite !Nat.eqb_refl. reflexivity.
Qed.

(** ** [Embedding.forward] *)

Lemma rsum_nonneg_squares (v : list R) : (0 <= rsum (map (fun x => x * x) v))%R.
Proof.
  unfold rsum. induction v as [|a v IH]; simpl; [lra|].
  pose proof (Rle_0_sqr a) as H. unfold Rsqr in H. lra.
Qed.

Lemma rsum_scaled_squares (n : R) (v : list R) :
  n <> 0%R ->
  rsum (map (fun x => (x * x)%R) (map (fun x => (x / n)%R) v))
  = (rsum (map (fun x => (x * x)%R) v) / (n * n))%R.
Proof.
  intros Hn. unfold rsum. induction v as [|a v IH]; simpl.
  - unfold Rdiv. now rewrite Rmult_0_l.
  - rewrite IH. field. exact Hn.
Qed.

Lemma eps_pos : (0 < eps)%R.
Proof. unfold eps. apply Rinv_0_lt_compat. apply pow_lt. lra. Qed.

Lemma normalize_row_unit (v : list R) :
  (eps <= norm2 v)%R -> norm2 (normalize_row v) = 1%R.
Proof.
  intros H. pose proof eps_pos as He.
  unfold normalize_row. rewrite Rmax_left by exact H.
  unfold norm2 at 1. rewrite rsum_scaled_squares by lra.
  unfold norm2. rewrite sqrt_sqrt by apply rsum_nonneg_squares.
  assert (Hs : (0 < rsum (map (fun x => x * x) v))%R).
  { destruct (Rle_lt_or_eq_dec _ _ (rsum_nonneg_squares v)) as [Hlt|Heq]; [exact Hlt|].
    exfalso. unfold norm2 in H. rewrite <- Heq, sqrt_0 in H. lra. }
  unfold Rdiv. rewrite Rinv_r by lra. apply sqrt_1.
Qed.

(** X4 — for an id in range whose row of the table has Euclidean norm at
    least [1e-12], [Embedding.forward] returns a vector of norm 1. *)
Theorem Embedding_unit_norm (self : Embedding.t) (c : nat) (rows : list (list R))
  (id : Z) (row : list R) :
  Embedding.W self = T2 c rows ->
  (0 <= id)%Z -> nth_error rows (Z.to_nat id) = Some row ->
  (eps <= norm2 row)%R ->
  exists e, Embedding.forward self (PyInt id) = Ok (T1 e) /\ norm2 e = 1%R.
Proof.
  intros HW Hid Hn Hr. exists (normalize_row row). split; [|now apply normalize_row_unit].
  unfold Embedding.forward, Embedding.lookup. rewrite HW. cbn.
  unfold getitem.
  assert (Hlt : (Z.to_nat id < length rows)%nat) by (apply nth_error_Some; congruence).
  assert (H1 : (id <? 0)%Z = false) by (apply Z.ltb_ge; lia).
  assert (H2 : ((0 <=? id) && (id <? Z.of_nat (length rows)))%Z = true).
  { apply andb_true_iff. split; [apply Z.leb_le | apply Z.ltb_lt]; lia. }
  rewrite H1, H2, Hn. reflexivity.
Qed.

Lemma Embedding_unit_norm_witness :
  exists e, Embedding.forward example_embedding (PyInt 1) = Ok (T1 e) /\ norm2 e = 1%R.
Proof.
  apply (Embedding_unit_norm example_embedding 2 [[1; 0]; [0; 1]; [0; 0]]%R 1 [0; 1]%R).
  - reflexivity.
  - lia.
  - reflexivity.
  - unfold norm2. cbn [map rsum fold_right].
    replace (0 * 0 + (1 * 1 + 0))%R with 1%R by lra. rewrite sqrt_1.
    unfold eps. apply Rle_trans with (/ 1)%R; [|rewrite Rinv_1; lra].
    apply Rinv_le_contravar; [lra|]. apply pow_R1_Rle. lra.
Defined.

(** X5 — a row of zeros is returned as it is: the norm is clamped to
    [1e-12] before the division, so the result is the zero vector and not a
    vector of norm 1. *)
Theorem Embedding_zero_row (self : Embedding.t) (c : nat) (rows : list (list R))
  (id : Z) :
  Embedding.W self = T2 c rows ->
  (0 <= id)%Z -> nth_error rows (Z.to_nat id) = Some (repeat 0%R c) ->
  Embedding.forward self (PyInt id) = Ok (T1 (repeat 0%R c)).
Proof.
  intros HW Hid Hn.
  unfold Embedding.forward, Embedding.lookup. rewrite HW. cbn.
  unfold getitem.
  assert (Hlt : (Z.to_nat id < length rows)%nat) by (apply nth_error_Some; congruence).
  assert (H1 : (id <? 0)%Z = false) by (apply Z.ltb_ge; lia).
  assert (H2 : ((0 <=? id) && (id <? Z.of_nat (length rows)))%Z = true).
  { apply andb_true_iff. split; [apply Z.leb_le | apply Z.ltb_lt]; lia. }
  rewrite H1, H2, Hn. cbn. do 2 f_equal.
  unfold normalize_row. rewrite map_repeat. f_equal.
  unfold Rdiv. apply Rmult_0_l.
Qed.

Lemma Embedding_zero_row_witness :
  Embedding.forward example_embedding (PyInt 2) = Ok (T1 [0; 0]%R).
Proof.
  apply (Embedding_zero_row example_embedding 2 [[1; 0]; [0; 1]; [0; 0]]%R 2).
  - reflexivity.
  - lia.
  - reflexivity.
Defined.

Lemma getitem_out_of_range {A : Type} (l : list A) (i : Z) :
  (i < - Z.of_nat (length l) \/ Z.of_nat (length l) <= i)%Z ->
  getitem l i = Raise IndexError.
Proof.
  intros H. unfold getitem.
  destruct (i <? 0)%Z eqn:E.
  - apply Z.ltb_lt in E.
    destruct ((0 <=? i + Z.of_nat (length l)) && (i + Z.of_nat (length l) <? Z.of_nat (length l)))%Z eqn:E2;
      [|reflexivity].
    apply andb_true_iff in E2 as [E2 _]. apply Z.leb_le in E2. lia.
  - apply Z.ltb_ge in E.
    destruct ((0 <=? i) && (i <? Z.of_nat (length l)))%Z eqn:E2; [|reflexivity].
    apply andb_true_iff in E2 as [_ E2]. apply Z.ltb_lt in E2. lia.
Qed.

(** X6 — the only range check is that of the indexing itself: an integer id
    that fits in 64 bits and is below [-vocab_size] or at least [vocab_size]
    ends in an [IndexError]. *)
Theorem Embedding_id_out_of_range (self : Embedding.t) (c : nat)
  (rows : list (list R)) (id : Z) :
  Embedding.W self = T2 c rows ->
  (-9223372036854775808 <= id < 9223372036854775808)%Z ->
  (id < - Z.of_nat (length rows) \/ Z.of_nat (length rows) <= id)%Z ->
  Embedding.forward self (PyInt id) = Raise IndexError.
Proof.
  intros HW _ Hid. unfold Embedding.forward, Embedding.lookup. rewrite HW. cbn.
  now rewrite getitem_out_of_range.
Qed.

Lemma Embedding_id_out_of_range_witness :
  Embedding.forward example_embedding (PyInt 3) = Raise IndexError /\
  Embedding.forward example_embedding (PyInt (-4)) = Raise IndexError.
Proof.
  split;
    apply (Embedding_id_out_of_range example_embedding 2 [[1; 0]; [0; 1]; [0; 0]]%R);
    try reflexivity; cbn; lia.
Defined.

Lemma getitem_in_range {A : Type} (l : list A) (i : Z) :
  (- Z.of_nat (length l) <= i < Z.of_nat (length l))%Z ->
  exists a, getitem l i = Ok a.
Proof.
  intros H. destruct (Z_lt_ge_dec i 0) as [Hneg|Hpos].
  - destruct (getitem_negative l i) as [a [_ [Ha _]]]; [lia|]. now exists a.
  - unfold getitem.
    assert (H1 : (i <? 0)%Z = false) by (apply Z.ltb_ge; lia).
    assert (H2 : ((0 <=? i) && (i <? Z.of_nat (length l)))%Z = true).
    { apply andb_true_iff. split; [apply Z.leb_le | apply Z.ltb_lt]; lia. }
    rewrite H1, H2.
    destruct (nth_error l (Z.to_nat i)) as [a|] eqn:E; [now exists a|].
    exfalso. apply nth_error_None in E. lia.
Qed.

Lemma mapM_Forall2 {A B : Type} (f : A -> result B) (l : list A) :
  Forall (fun a => exists b, f a = Ok b) l ->
  exists bs, mapM f l = Ok bs /\ Forall2 (fun a b => f a = Ok b) l bs.
Proof.
  induction 1 as [|a l [b Hb] _ [bs [E F]]].
  - exists []. split; [reflexivity | constructor].
  - exists (b :: bs). split; [cbn; now rewrite Hb, E | now constructor].
Qed.

(** X7 — on a one-axis tensor of [int32] or [int64] ids, all in range,
    [Embedding.forward] returns one row per id, and row [k] is what the call
    returns for the single id at position [k]. *)
Theorem Embedding_sequence_is_rowwise (self : Embedding.t) (c : nat)
  (rows : list (list R)) (dt : dtype) (ids : list Z) :
  Embedding.W self = T2 c rows ->
  is_int32_or_int64 dt = true ->
  Forall (fun id => (- Z.of_nat (length rows) <= id < Z.of_nat (length rows))%Z) ids ->
  exists es,
    Embedding.forward self (PyIntTensor dt (T1 ids)) = Ok (T2 c es) /\
    Forall2 (fun id e => Embedding.forward self (PyInt id) = Ok (T1 e)) ids es.
Proof.
  intros HW Hdt Hids.
  destruct (mapM_Forall2 (getitem rows) ids) as [rs [E F]].
  { eapply Forall_impl; [|exact Hids]. intros id H. now apply getitem_in_range. }
  exists (map normalize_row rs). split.
  - unfold Embedding.forward, Embedding.lookup. rewrite HW. cbn. rewrite Hdt. cbn.
    rewrite E. cbn. rewrite (mapM_ok _ normalize_row) by reflexivity. reflexivity.
  - clear E. induction F as [|id r ids rs Hr _ IH]; [constructor|].
    cbn [map]. constructor.
    + unfold Embedding.forward, Embedding.lookup. rewrite HW. cbn. rewrite Hr. reflexivity.
    + apply IH. now inversion Hids.
Qed.

Lemma Embedding_sequence_is_rowwise_witness :
  exists es,
    Embedding.forward example_embedding (PyIntTensor int64 (T1 [0; -1; 1]%Z)) = Ok (T2 2 es) /\
    Forall2 (fun id e => Embedding.forward example_embedding (PyInt id) = Ok (T1 e))
            [0; -1; 1]%Z es.
Proof.
  apply (Embedding_sequence_is_rowwise example_embedding 2 [[1; 0]; [0; 1]; [0; 0]]%R).
  - reflexivity.
  - reflexivity.
  - repeat constructor; cbn; lia.
Defined.

(** ** [LinearLayer.forward] *)

Lemma map2_repeat_r {A B C : Type} (f : A -> B -> C) (b : B) (l : list A) :
  map2 f l (repeat b (length l)) = map (fun a => f a b) l.
Proof. induction l as [|a l IH]; simpl; [reflexivity | now f_equal]. Qed.

(** A matrix and a vector of the size of its rows: the vector is combined
    with every row. *)
Lemma broadcast2_T2_T1 {A B C : Type} (f : A -> B -> C) (c : nat)
  (a : list (list A)) (v : list B) :
  length v = c -> Forall (fun row => length row = c) a ->
  broadcast2 f (T2 c a) (T1 v) = Ok (T2 c (map (fun row => map2 f row v) a)).
Proof.
  intros Lv Fa. unfold broadcast2. cbn [size]. rewrite Lv.
  assert (Hs : broadcast_shapes [length a; c] [c] = Some [length a; c]).
  { unfold broadcast_shapes. cbn [rev app broadcast_rev]. now rewrite Nat.eqb_refl. }
  rewrite Hs. rewrite expand_to_T2 by (reflexivity || assumption). cbn [bind].
  assert (Hv : expand_to [length a; c] (T1 v) = Ok (T2 c (repeat v (length a)))).
  { unfold expand_to. cbn [size]. rewrite Lv.
    assert (Hb : broadcast_shapes [c] [length a; c] = Some [length a; c]).
    { unfold broadcast_shapes. cbn [rev app broadcast_rev]. now rewrite Nat.eqb_refl. }
    rewrite Hb, shape_eqb_refl. cbn [negb as3]. unfold expand3. cbn [map].
    rewrite (stretch_same c v) by exact Lv.
    cbn [stretch repeat concat]. now rewrite app_nil_r. }
  rewrite Hv. cbn [bind zip_with]. do 2 f_equal. apply map2_repeat_r.
Qed.

Lemma add_T2_T1 (c : nat) (a : list (list R)) (v : list R) :
  length v = c -> Forall (fun row => length row = c) a ->
  add (T2 c a) (T1 v) = Ok (T2 c (map (fun row => vadd row v) a)).
Proof. apply broadcast2_T2_T1. Qed.

Lemma linear_length (self : LinearLayer.t) (i o : nat) (x : list R) :
  LinearLayer_sized self i o -> length x = i -> length (linear self x) = o.
Proof.
  intros (w & bv & EW & Eb & Lw & Lb & Hres) Lx. unfold linear.
  rewrite EW, Eb. cbn [rows_of coords].
  assert (L1 : length (vadd (mv w x) bv) = o).
  { rewrite vadd_length; rewrite mv_length; congruence. }
  destruct (LinearLayer.residual self); [|exact L1].
  rewrite vadd_length; [exact L1|]. rewrite L1, Lx. symmetry. now apply Hres.
Qed.

Lemma LinearLayer_forward_affine_vector (self : LinearLayer.t) (i o : nat) :
  LinearLayer_sized self i o ->
  forall x, length x = i ->
  LinearLayer.forward self (T1 x) = Ok (T1 (linear self x)) /\
  length (linear self x) = o.
Proof.
  intros Hs x Lx. split; [|now apply (linear_length self i o)].
  destruct Hs as (w & bv & EW & Eb & Lw & Lb & Hres).
  unfold LinearLayer.forward, linear. rewrite EW, Eb.
  cbn [rows_of coords]. size_checks. rewrite Lx, Nat.eqb_refl. size_checks.
  rewrite bmv_vector by exact Lx. cbn [bind].
  rewrite add_T1 by (rewrite mv_length; congruence). cbn [bind].
  destruct (LinearLayer.residual self) eqn:Er; [|reflexivity].
  rewrite add_T1; [reflexivity|].
  rewrite vadd_length by (rewrite mv_length; congruence).
  rewrite mv_length, Lx, Lw. symmetry. now apply Hres.
Qed.

(** X8 — a layer with the sizes its constructor gives maps a vector [x] of
    size [input_dims] to [W x + b] (plus [x] for a residual layer), and a
    sequence of such vectors to the sequence of their images, row by row. *)
Theorem LinearLayer_forward_affine (self : LinearLayer.t) (i o : nat) :
  LinearLayer_sized self i o ->
  (forall x, length x = i ->
     LinearLayer.forward self (T1 x) = Ok (T1 (linear self x))) /\
  (forall X, Forall (fun x => length x = i) X ->
     LinearLayer.forward self (T2 i X) = Ok (T2 o (map (linear self) X))).
Proof.
  intros Hs. pose proof Hs as (w & bv & EW & Eb & Lw & Lb & Hres). split.
  - intros x Lx. unfold LinearLayer.forward, linear. rewrite EW, Eb.
    cbn [rows_of coords]. size_checks. rewrite Lx, Nat.eqb_refl. size_checks.
    rewrite bmv_vector by exact Lx. cbn [bind].
    rewrite add_T1 by (rewrite mv_length; congruence). cbn [bind].
    destruct (LinearLayer.residual self) eqn:Er; [|reflexivity].
    rewrite add_T1; [reflexivity|].
    rewrite vadd_length by (rewrite mv_length; congruence).
    rewrite mv_length, Lx, Lw. symmetry. now apply Hres.
  - intros X FX. unfold LinearLayer.forward. rewrite EW, Eb.
    size_checks. rewrite Nat.eqb_refl. size_checks.
    rewrite bmv_batch, Lw. cbn [bind].
    rewrite add_T2_T1 by
      (try exact Lb; pose proof (Forall_mv_length w X) as H; now rewrite Lw in H).
    cbn [bind]. rewrite map_map.
    destruct (LinearLayer.residual self) eqn:Er.
    + assert (Eio : i = o) by now apply Hres. rewrite <- Eio in *.
      rewrite add_T2.
      * do 2 f_equal. rewrite <- (map_id X) at 2. rewrite map2_map_map.
        apply map_ext. intros x. unfold linear. rewrite EW, Eb, Er. reflexivity.
      * now rewrite length_map.
      * apply Forall_forall. intros row Hin. apply in_map_iff in Hin as [x [<- Hx]].
        rewrite vadd_length; rewrite mv_length; congruence.
      * exact FX.
    + do 2 f_equal. apply map_ext. intros x. unfold linear.
      rewrite EW, Eb, Er. reflexivity.
Qed.

Lemma example_linear_sized : LinearLayer_sized example_linear 2 2.
Proof.
  exists [[INR 0; INR 1]; [INR 1; INR 2]], [INR 0; INR 1].
  repeat split; reflexivity.
Qed.

Lemma LinearLayer_forward_affine_witness :
  LinearLayer.forward example_linear (T1 [1; 2]%R) = Ok (T1 (linear example_linear [1; 2]%R)) /\
  LinearLayer.forward example_linear (T2 2 [[1; 2]; [3; 4]]%R)
  = Ok (T2 2 (map (linear example_linear) [[1; 2]; [3; 4]]%R)).
Proof.
  destruct (LinearLayer_forward_affine example_linear 2 2 example_linear_sized) as [Hv Hb].
  split.
  - apply Hv. reflexivity.
  - apply Hb. repeat constructor.
Defined.

(** ** [SoftmaxLayer.forward] *)

Lemma rsum_exp_pos (l : list R) : l <> [] -> (0 < rsum (map exp l))%R.
Proof.
  intros H. destruct l as [|a l]; [congruence|]. clear H.
  revert a. induction l as [|b l IH]; intros a; cbn.
  - pose proof (exp_pos a). lra.
  - pose proof (exp_pos a). pose proof (IH b) as Hb. cbn in Hb. lra.
Qed.

Lemma rsum_div (s : R) (l : list R) :
  rsum (map (fun x => (x / s)%R) l) = (rsum l / s)%R.
Proof.
  unfold rsum. induction l as [|a l IH]; simpl.
  - unfold Rdiv. now rewrite Rmult_0_l.
  - rewrite IH. unfold Rdiv. ring.
Qed.

(** A softmax over a non-empty list sums to 1. *)
Lemma softmax_sums_to_one (l : list R) :
  l <> [] ->
  rsum (map (fun x => (exp x / rsum (map exp l))%R) l) = 1%R.
Proof.
  intros H. pose proof (rsum_exp_pos l H) as Hs.
  rewrite <- (map_map exp (fun y => (y / rsum (map exp l))%R)).
  rewrite rsum_div. unfold Rdiv. apply Rinv_r. lra.
Qed.

Lemma log_softmax_row_normalised (l : list R) :
  l <> [] ->
  rsum (map exp (map (fun x => (x - ln (rsum (map exp l)))%R) l)) = 1%R.
Proof.
  intros H. pose proof (rsum_exp_pos l H) as Hs.
  rewrite map_map. rewrite <- (softmax_sums_to_one l H).
  f_equal. apply map_ext. intros x.
  unfold Rminus. rewrite exp_plus, exp_Ropp, exp_ln by exact Hs. reflexivity.
Qed.

(** X9 — for a layer with the sizes its constructor gives and at least one
    output class, [SoftmaxLayer.forward] on a vector of size [input_dims]
    returns [output_dims] log-probabilities: their exponentials sum to 1. *)
Theorem SoftmaxLayer_log_probabilities (self : SoftmaxLayer.t) (i o : nat) (x : list R) :
  SoftmaxLayer_sized self i o -> 1 <= o -> length x = i ->
  exists y,
    SoftmaxLayer.forward self (T1 x) = Ok (T1 y) /\
    length y = o /\ rsum (map exp y) = 1%R.
Proof.
  intros (w & EW & Lw) Ho Lx.
  set (w' := map normalize_row w).
  set (x' := map (fun a => (a * 10)%R) (normalize_row x)).
  exists (map (fun a => (a - ln (rsum (map exp (mv w' x'))))%R) (mv w' x')).
  assert (Lm : length (mv w' x') = o).
  { unfold w'. now rewrite mv_length, length_map. }
  split; [|split].
  - unfold SoftmaxLayer.forward. rewrite EW. size_checks.
    rewrite Lx, Nat.eqb_refl. size_checks.
    cbn [SoftmaxLayer.normalize_dim1 normalize along_last].
    rewrite (mapM_ok _ normalize_row) by reflexivity. cbn [bind mul_scalar tmap].
    fold w' x'. rewrite bmv_vector.
    + reflexivity.
    + unfold x', normalize_row. now rewrite !length_map.
  - now rewrite length_map.
  - apply log_softmax_row_normalised. intros E. rewrite E in Lm. cbn in Lm. lia.
Qed.

Lemma SoftmaxLayer_log_probabilities_witness :
  exists y,
    SoftmaxLayer.forward example_softmax (T1 [1; 2]%R) = Ok (T1 y) /\
    length y = 3 /\ rsum (map exp y) = 1%R.
Proof.
  apply (SoftmaxLayer_log_probabilities example_softmax 2 3 [1; 2]%R).
  - eexists. split; reflexivity.
  - lia.
  - reflexivity.
Defined.

(** ** [attention] without a mask *)

Lemma softmax_row_fin (l : list R) :
  softmax_row (map Fin l) = Ok (map (fun x => (exp x / rsum (map exp l))%R) l).
Proof.
  destruct l as [|a l]; [reflexivity|].
  rewrite softmax_row_finite by reflexivity. now rewrite !map_map.
Qed.

Lemma mapM_xdiv_fin (temp : R) (l : list R) :
  mapM (xdiv temp) (map Fin l) = Ok (map Fin (map (fun r => (r / temp)%R) l)).
Proof.
  rewrite (mapM_ok _ (xscale temp)).
  - now rewrite !map_map.
  - intros x Hin. apply in_map_iff in Hin as [r [<- _]]. reflexivity.
Qed.

Lemma mapM_map_ok {A B C : Type} (f : B -> result C) (g : A -> B) (h : A -> C)
  (l : list A) :
  (forall a, In a l -> f (g a) = Ok (h a)) -> mapM f (map g l) = Ok (map h l).
Proof.
  intros H. induction l as [|a l IH]; [reflexivity|].
  cbn [map mapM]. rewrite (H a (or_introl eq_refl)). cbn [bind].
  rewrite IH by (intros; apply H; now right). reflexivity.
Qed.

Lemma attention_vector_eval (d dv : nat) (temp : R) (q : list R) (K V : list (list R)) :
  length q = d -> Forall (fun row => length row = d) K -> length V = length K ->
  attention (T1 q) (T2 d K) (T2 dv V) None temp = Ok (T1 (attend d dv temp q K V)).
Proof.
  intros Lq FK LV. unfold attention, check_sizes. size_checks.
  rewrite Lq, Nat.eqb_refl. size_checks. rewrite LV, Nat.eqb_refl. size_checks.
  unfold masked_logits. cbn [transpose_last2 bind matmul].
  rewrite columns_length, Lq, Nat.eqb_refl. cbn [bind div_scalar tmap tmapM].
  rewrite columns_columns by exact FK.
  rewrite mapM_xdiv_fin. cbn [bind softmax along_last].
  rewrite softmax_row_fin. cbn [bind matmul].
  rewrite !length_map, LV, Nat.eqb_refl.
  unfold attend, weights_temp. rewrite !map_map. reflexivity.
Qed.

Lemma attention_batch_eval (d dv : nat) (temp : R) (Q K V : list (list R)) :
  Forall (fun row => length row = d) K -> length V = length K ->
  attention (T2 d Q) (T2 d K) (T2 dv V) None temp
  = Ok (T2 dv (map (fun q => attend d dv temp q K V) Q)).
Proof.
  intros FK LV. unfold attention, check_sizes. size_checks.
  rewrite Nat.eqb_refl. size_checks. rewrite LV, Nat.eqb_refl. size_checks.
  unfold masked_logits. cbn [transpose_last2 bind matmul].
  rewrite columns_length, Nat.eqb_refl. cbn [bind div_scalar tmap tmapM].
  rewrite columns_columns by exact FK.
  unfold mm. rewrite !map_map.
  rewrite (mapM_map_ok _ _
             (fun q => map Fin (map (fun r => (r / temp)%R)
                          (map (fun a => (a / sqrt (INR d))%R) (map (dot q) K))))).
  2:{ intros q _. apply mapM_xdiv_fin. }
  cbn [bind softmax along_last].
  rewrite (mapM_map_ok _ _ (fun q => weights_temp d temp q K)).
  2:{ intros q _. rewrite softmax_row_fin. unfold weights_temp. now rewrite !map_map. }
  cbn [bind matmul]. rewrite LV, Nat.eqb_refl.
  unfold mm, attend. now rewrite map_map.
Qed.

Lemma weights_temp_distribution (d : nat) (temp : R) (q : list R) (K : list (list R)) :
  K <> [] ->
  length (weights_temp d temp q K) = length K /\
  Forall (fun a => (0 < a)%R) (weights_temp d temp q K) /\
  rsum (weights_temp d temp q K) = 1%R.
Proof.
  intros HK. unfold weights_temp.
  set (l := map (fun k => (dot q k / sqrt (INR d) / temp)%R) K).
  assert (Hl : l <> []) by (subst l; destruct K; [congruence | discriminate]).
  pose proof (rsum_exp_pos l Hl) as Hs.
  split; [|split].
  - subst l. now rewrite !length_map.
  - apply Forall_forall. intros a Hin. apply in_map_iff in Hin as [x [<- _]].
    apply Rdiv_lt_0_compat; [apply exp_pos | exact Hs].
  - now apply softmax_sums_to_one.
Qed.

(** X10 — for one query vector of size [d >= 1], at least one key and a
    temperature other than 0, [attention] without a mask returns the values
    weighted by one weight per key; the weights are positive and sum to 1. *)
Theorem attention_is_weighted_average (d dv : nat) (temp : R) (q : list R)
  (K V : list (list R)) :
  1 <= d -> temp <> 0%R ->
  length q = d -> Forall (fun row => length row = d) K -> K <> [] ->
  length V = length K ->
  exists w,
    attention (T1 q) (T2 d K) (T2 dv V) None temp
      = Ok (T1 (map (dot w) (columns dv V))) /\
    length w = length K /\ Forall (fun a => (0 < a)%R) w /\ rsum w = 1%R.
Proof.
  intros _ _ Lq FK HK LV. exists (weights_temp d temp q K). split.
  - now apply attention_vector_eval.
  - now apply weights_temp_distribution.
Qed.

Lemma attention_is_weighted_average_witness :
  exists w,
    attention (T1 [1; 2]%R) (T2 2 [[1; 0]; [0; 1]]%R) (T2 3 [[1; 2; 3]; [4; 5; 6]]%R) None 2
      = Ok (T1 (map (dot w) (columns 3 [[1; 2; 3]; [4; 5; 6]]%R))) /\
    length w = 2 /\ Forall (fun a => (0 < a)%R) w /\ rsum w = 1%R.
Proof.
  apply (attention_is_weighted_average 2 3 2 [1; 2]%R [[1; 0]; [0; 1]]%R
           [[1; 2; 3]; [4; 5; 6]]%R).
  - lia.
  - lra.
  - reflexivity.
  - repeat constructor.
  - discriminate.
  - reflexivity.
Defined.

Lemma col_repeat (j n : nat) (v : list R) :
  j < length v -> col j (repeat v n) = repeat (nth j v 0%R) n.
Proof.
  intros Hj.
  assert (E : firstn 1 (skipn j v) = [nth j v 0%R]).
  { revert j Hj. induction v as [|a v IH]; intros j Hj; simpl in Hj; [lia|].
    destruct j as [|j]; [reflexivity|]. cbn [skipn nth]. apply IH. lia. }
  induction n as [|n IH]; [reflexivity|].
  cbn [repeat]. rewrite col_cons, IH, E. reflexivity.
Qed.

Lemma dot_constant (w : list R) (c : R) :
  dot w (repeat c (length w)) = (rsum w * c)%R.
Proof.
  unfold rsum. induction w as [|a w IH]; simpl; [lra|]. rewrite IH. lra.
Qed.

(** X11 — when all the value rows are the same vector, [attention] returns
    that vector, whatever the query and the keys (of size [d >= 1]) and
    whatever the temperature other than 0. *)
Theorem attention_of_equal_values (d dv : nat) (temp : R) (q v : list R)
  (K : list (list R)) :
  1 <= d -> temp <> 0%R ->
  length q = d -> Forall (fun row => length row = d) K -> K <> [] ->
  length v = dv ->
  attention (T1 q) (T2 d K) (T2 dv (repeat v (length K))) None temp = Ok (T1 v).
Proof.
  intros _ _ Lq FK HK Lv.
  rewrite attention_vector_eval by (try assumption; apply repeat_length).
  do 2 f_equal. unfold attend, columns.
  destruct (weights_temp_distribution d temp q K HK) as (Lw & _ & Sw).
  rewrite map_map, <- Lv.
  etransitivity; [|apply (map_nth_seq 0%R v)].
  apply map_ext_in. intros j Hj. apply in_seq in Hj.
  rewrite col_repeat by lia. rewrite <- Lw, dot_constant, Sw. lra.
Qed.

Lemma attention_of_equal_values_witness :
  attention (T1 [1; 2]%R) (T2 2 [[1; 0]; [0; 1]; [3; 3]]%R)
    (T2 2 (repeat [5; 7]%R 3)) None 1
  = Ok (T1 [5; 7]%R).
Proof.
  apply (attention_of_equal_values 2 2 1 [1; 2]%R [5; 7]%R [[1; 0]; [0; 1]; [3; 3]]%R).
  - lia.
  - lra.
  - reflexivity.
  - repeat constructor.
  - discriminate.
  - reflexivity.
Defined.

(** X12 — a batch of queries is handled query by query: without a mask,
    [attention] on a matrix of queries returns one context vector per query,
    the one it returns for that query alone. *)
Theorem attention_batch_is_rowwise (d dv : nat) (temp : R) (Q K V : list (list R)) :
  Forall (fun row => length row = d) Q ->
  Forall (fun row => length row = d) K -> length V = length K ->
  exists C,
    attention (T2 d Q) (T2 d K) (T2 dv V) None temp = Ok (T2 dv C) /\
    Forall2 (fun q c => attention (T1 q) (T2 d K) (T2 dv V) None temp = Ok (T1 c)) Q C.
Proof.
  intros FQ FK LV. exists (map (fun q => attend d dv temp q K V) Q). split.
  - now apply attention_batch_eval.
  - induction FQ as [|q Q Lq _ IH]; [constructor|].
    cbn [map]. constructor; [now apply attention_vector_eval | exact IH].
Qed.

Lemma attention_batch_is_rowwise_witness :
  exists C,
    attention (T2 1 [[1]; [2]]%R) (T2 1 [[1]; [0]; [3]]%R)
      (T2 2 [[1; 0]; [0; 1]; [1; 1]]%R) None 2 = Ok (T2 2 C) /\
    Forall2 (fun q c => attention (T1 q) (T2 1 [[1]; [0]; [3]]%R)
                          (T2 2 [[1; 0]; [0; 1]; [1; 1]]%R) None 2 = Ok (T1 c))
            [[1]; [2]]%R C.
Proof.
  apply (attention_batch_is_rowwise 1 2 2 [[1]; [2]]%R [[1]; [0]; [3]]%R
           [[1; 0]; [0; 1]; [1; 1]]%R).
  - repeat constructor.
  - repeat constructor.
  - reflexivity.
Defined.

(** ** The masked self-attention layers *)

(** X13 — [forward] does not look ahead: two sequences that agree on their
    first [k] vectors give the same first [k] output vectors. *)
Theorem forward_is_causal (self : AttentionLayer.t) (k : nat) (X Y : list (list R)) :
  AttentionLayer.wf self ->
  Forall (fun x => length x = dims self) X ->
  Forall (fun y => length y = dims self) Y ->
  k <= length X -> k <= length Y -> firstn k X = firstn k Y ->
  exists ox oy,
    MaskedSelfAttentionLayer.forward self (T2 (dims self) X) = Ok (T2 (dims self) ox) /\
    MaskedSelfAttentionLayer.forward self (T2 (dims self) Y) = Ok (T2 (dims self) oy) /\
    firstn k ox = firstn k oy.
Proof.
  intros Hwf FX FY HkX HkY E.
  eexists. eexists. split; [now apply forward_eval|]. split; [now apply forward_eval|].
  rewrite !firstn_map, !firstn_seq_le by assumption.
  apply map_ext_in. intros i Hi. apply in_seq in Hi.
  assert (Hlt : (i <? k) = true) by (apply Nat.ltb_lt; lia).
  assert (EX : firstn i X = firstn i (firstn k X))
    by (rewrite firstn_firstn, Nat.min_l by lia; reflexivity).
  assert (EY : firstn i Y = firstn i (firstn k Y))
    by (rewrite firstn_firstn, Nat.min_l by lia; reflexivity).
  assert (NX : nth i X [] = nth i (firstn k X) []) by (now rewrite nth_firstn, Hlt).
  assert (NY : nth i Y [] = nth i (firstn k Y) []) by (now rewrite nth_firstn, Hlt).
  now rewrite EX, EY, NX, NY, E.
Qed.

Lemma forward_is_causal_witness :
  exists ox oy,
    MaskedSelfAttentionLayer.forward example_layer (T2 2 [[1; 0]; [0; 1]; [2; 3]]%R)
      = Ok (T2 2 ox) /\
    MaskedSelfAttentionLayer.forward example_layer (T2 2 [[1; 0]; [0; 1]; [7; 7]; [5; 5]]%R)
      = Ok (T2 2 oy) /\
    firstn 2 ox = firstn 2 oy.
Proof.
  apply (forward_is_causal example_layer 2 [[1; 0]; [0; 1]; [2; 3]]%R
           [[1; 0]; [0; 1]; [7; 7]; [5; 5]]%R).
  - apply AttentionLayer_init_wf.
  - repeat constructor.
  - repeat constructor.
  - cbn. lia.
  - cbn. lia.
  - reflexivity.
Defined.

Lemma average_of_equal_values (w v : list R) :
  rsum w = 1%R ->
  map (dot w) (columns (length v) (repeat v (length w))) = v.
Proof.
  intros Sw. unfold columns. rewrite map_map.
  etransitivity; [|apply (map_nth_seq 0%R v)].
  apply map_ext_in. intros j Hj. apply in_seq in Hj.
  rewrite col_repeat by lia. rewrite dot_constant, Sw. lra.
Qed.

(** X14 — the first [step], from [start()]: the only key is that of the input
    itself, so the output is the value of the input plus the input,
    [W_V x + x], and the new state holds the input alone. *)
Theorem first_step_attends_to_itself (self : AttentionLayer.t) (x : list R) :
  AttentionLayer.wf self -> length x = dims self ->
  MaskedSelfAttentionLayer.step self (MaskedSelfAttentionLayer.start self) (T1 x)
  = Ok (T2 (dims self) [x], T1 (vadd (mv (rows_of (W_V self)) x) x)).
Proof.
  intros Hwf Lx. unfold MaskedSelfAttentionLayer.start.
  rewrite step_eval by (assumption || constructor).
  cbn [app]. do 3 f_equal. unfold step_output. cbn [app map]. f_equal.
  destruct Hwf as (wq & wk & wv & Eq & Ek & Ev & Lq & Lk & Lv & _).
  rewrite Eq, Ek, Ev. cbn [rows_of].
  set (w := weights_of (dims self) (mv wq x) [mv wk x]).
  assert (Lw : length w = 1) by reflexivity.
  assert (Sw : rsum w = 1%R).
  { apply (weights_temp_distribution (dims self) 1 (mv wq x) [mv wk x]). discriminate. }
  pose proof (average_of_equal_values w (mv wv x) Sw) as H.
  rewrite Lw, mv_length, Lv in H. exact H.
Qed.

Lemma first_step_attends_to_itself_witness :
  MaskedSelfAttentionLayer.step example_layer (MaskedSelfAttentionLayer.start example_layer)
    (T1 [1; 2]%R)
  = Ok (T2 2 [[1; 2]%R], T1 (vadd (mv (rows_of (W_V example_layer)) [1; 2]%R) [1; 2]%R)).
Proof.
  apply (first_step_attends_to_itself example_layer [1; 2]%R).
  - apply AttentionLayer_init_wf.
  - reflexivity.
Defined.

(** X15 — on a sequence of no vectors [MaskedSelfAttentionLayer.forward]
    returns the empty sequence, while [MaskedSelfAttentionLayerTemp.forward]
    divides by [n ** 3 = 0] when it computes its temperature and ends in a
    [ZeroDivisionError]. *)
Theorem Temp_forward_empty_sequence (self : AttentionLayer.t) :
  AttentionLayer.wf self ->
  MaskedSelfAttentionLayer.forward self (T2 (dims self) []) = Ok (T2 (dims self) []) /\
  MaskedSelfAttentionLayerTemp.forward self (T2 (dims self) []) = Raise ZeroDivisionError.
Proof.
  intros Hwf. split.
  - now rewrite forward_eval by (assumption || constructor).
  - destruct Hwf as (wq & wk & wv & Eq & Ek & Ev & _).
    unfold MaskedSelfAttentionLayerTemp.forward. rewrite Eq, Ek, Ev.
    size_checks. rewrite Nat.eqb_refl. size_checks.
    rewrite !bmv_batch. reflexivity.
Qed.

Lemma Temp_forward_empty_sequence_witness :
  MaskedSelfAttentionLayer.forward example_layer (T2 2 []) = Ok (T2 2 []) /\
  MaskedSelfAttentionLayerTemp.forward example_layer (T2 2 []) = Raise ZeroDivisionError.
Proof.
  apply (Temp_forward_empty_sequence example_layer). apply AttentionLayer_init_wf.
Defined.

Lemma bind_ext {A B : Type} (c : result A) (k1 k2 : A -> result B) :
  (forall a, k1 a = k2 a) -> bind c k1 = bind c k2.
Proof. intros H. destruct c; cbn; [apply H | reflexivity | reflexivity]. Qed.

(** X16 — on a sequence of one vector the temperature is [1/1**3 = 1], and
    [MaskedSelfAttentionLayerTemp.forward] is
    [MaskedSelfAttentionLayer.forward]. *)
Theorem Temp_forward_single_vector (self : AttentionLayer.t) (inputs : tensor R) :
  getitem (size inputs) (-2) = Ok 1 ->
  MaskedSelfAttentionLayerTemp.forward self inputs
  = MaskedSelfAttentionLayer.forward self inputs.
Proof.
  intros H.
  unfold MaskedSelfAttentionLayerTemp.forward, MaskedSelfAttentionLayer.forward.
  apply bind_ext. intros _. rewrite H. cbn [bind].
  apply bind_ext. intros d. apply bind_ext. intros _.
  apply bind_ext. intros queries. apply bind_ext. intros keys.
  apply bind_ext. intros values.
  change (1 ^ 3 =? 0) with false. cbn [bind].
  apply bind_ext. intros mask.
  replace (1 / INR (1 ^ 3))%R with 1%R by (cbn; lra). reflexivity.
Qed.

Lemma Temp_forward_single_vector_witness :
  MaskedSelfAttentionLayerTemp.forward example_layer (T2 2 [[1; 2]]%R)
  = MaskedSelfAttentionLayer.forward example_layer (T2 2 [[1; 2]]%R).
Proof. apply Temp_forward_single_vector. reflexivity. Defined.

(** ** [hardAttention] beyond the documented batch *)

Lemma masked_logits_vector (d d' : nat) (q : list R) (K : list (list R)) :
  length q = d -> Forall (fun row => length row = d) K ->
  masked_logits (T1 q) (T2 d K) None d'
  = Ok (T1 (map Fin (map (fun a => (a / sqrt (INR d'))%R) (map (dot q) K)))).
Proof.
  intros Lq FK. unfold masked_logits. cbn [transpose_last2 bind matmul].
  rewrite columns_length, Lq, Nat.eqb_refl. cbn [bind div_scalar tmap].
  now rewrite columns_columns by exact FK.
Qed.

Lemma masked_logits_batch (d d' : nat) (Q K : list (list R)) :
  Forall (fun row => length row = d) K ->
  masked_logits (T2 d Q) (T2 d K) None d'
  = Ok (T2 (length K)
           (map (fun q => map Fin (map (fun a => (a / sqrt (INR d'))%R) (map (dot q) K))) Q)).
Proof.
  intros FK. unfold masked_logits. cbn [transpose_last2 bind matmul].
  rewrite columns_length, Nat.eqb_refl. cbn [bind div_scalar tmap].
  rewrite columns_columns by exact FK. unfold mm. now rewrite !map_map.
Qed.

(** X17 — [hardAttention] cannot take a single query vector, although its
    docstring offers it: the weights then have one axis, and both
    [torch.argmax(..., dim=1)] and [gumbel_softmax(..., dim=1)] end in an
    [IndexError]. *)
Theorem hardAttention_single_query_IndexError (d dv : nat) (q : list R)
  (K V : list (list R)) (gumbel : bool) (gumbels : tensor R) :
  length q = d -> Forall (fun row => length row = d) K -> length V = length K ->
  hardAttention (T1 q) (T2 d K) (T2 dv V) None gumbel gumbels = Raise IndexError.
Proof.
  intros Lq FK LV. unfold hardAttention, check_sizes. size_checks.
  rewrite Lq, Nat.eqb_refl. size_checks. rewrite LV, Nat.eqb_refl. size_checks.
  rewrite masked_logits_vector by assumption.
  cbn [bind softmax along_last]. rewrite softmax_row_fin. cbn [bind].
  destruct gumbel; reflexivity.
Qed.

Lemma hardAttention_single_query_IndexError_witness :
  hardAttention (T1 [1; 2]%R) (T2 2 [[1; 0]; [0; 1]]%R) (T2 1 [[1]; [2]]%R) None false (T0 0%R)
  = Raise IndexError.
Proof.
  apply hardAttention_single_query_IndexError.
  - reflexivity.
  - repeat constructor.
  - reflexivity.
Defined.

Lemma argmax_from_bound (l : list R) :
  forall best bi i, bi < i -> argmax_from best bi i l < i + length l.
Proof.
  induction l as [|x l IH]; intros best bi i H; cbn [argmax_from length].
  - lia.
  - destruct (Rlt_dec best x).
    + specialize (IH x i (S i)). lia.
    + specialize (IH best bi (S i)). lia.
Qed.

Lemma argmax_row_bound (l : list R) (i : nat) : argmax_row l = Ok i -> i < length l.
Proof.
  destruct l as [|x l]; [discriminate|]. cbn [argmax_row length].
  intros E. injection E as <-. pose proof (argmax_from_bound l x 0 1). lia.
Qed.

Lemma hardAttention_argmax_eval (d dv : nat) (Q K V : list (list R))
  (gumbels : tensor R) :
  Forall (fun row => length row = d) K -> K <> [] -> length V = length K ->
  exists idx,
    length idx = length Q /\ Forall (fun i => i < length K) idx /\
    hardAttention (T2 d Q) (T2 d K) (T2 dv V) None false gumbels
    = if length Q =? length K
      then Ok (T1 (map (dot (map INR idx)) (columns dv V)))
      else Raise RuntimeError.
Proof.
  intros FK HK LV.
  set (row := fun q => map (fun x => (exp x / rsum (map exp
                 (map (fun a => (a / sqrt (INR d))%R) (map (dot q) K))))%R)
                 (map (fun a => (a / sqrt (INR d))%R) (map (dot q) K))).
  destruct (mapM_Forall2 argmax_row (map row Q)) as [idx [E F]].
  { apply Forall_forall. intros r Hin. apply in_map_iff in Hin as [q [<- _]].
    unfold row. destruct K as [|k K']; [congruence|]. cbn. eexists. reflexivity. }
  exists idx. split; [|split].
  - apply Forall2_length in F. now rewrite length_map in F.
  - clear E. remember (map row Q) as rows eqn:Er.
    assert (Hr : Forall (fun r => length r = length K) rows).
    { subst rows. apply Forall_forall. intros r Hin.
      apply in_map_iff in Hin as [q [<- _]]. unfold row. now rewrite !length_map. }
    clear Er. induction F as [|r i rows idx Hri _ IH]; [constructor|].
    inversion Hr as [|? ? Lr Hr']; subst. constructor; [|now apply IH].
    rewrite <- Lr. now apply argmax_row_bound.
  - unfold hardAttention, check_sizes. size_checks.
    rewrite Nat.eqb_refl. size_checks. rewrite LV, Nat.eqb_refl. size_checks.
    rewrite masked_logits_batch by assumption.
    cbn [bind softmax along_last].
    rewrite (mapM_map_ok _ _ row) by (intros q _; apply softmax_row_fin).
    cbn [bind argmax_dim1].
    assert (HK0 : (length K =? 0) = false).
    { apply Nat.eqb_neq. destruct K; [congruence | discriminate]. }
    rewrite HK0, E. cbn [bind float tmap matmul].
    rewrite length_map, LV.
    apply Forall2_length in F. rewrite length_map in F. rewrite <- F.
    destruct (length Q =? length K); reflexivity.
Qed.

(** X18 — [hardAttention] with [gumbel=False] on [m] queries and [n >= 1] keys:
    the argmax gives one key position per query, which is then used as a
    weight vector over the values.  The call fails with a [RuntimeError]
    unless [m = n], and for [m = n] returns one vector of size [d'], the sum
    of the value rows multiplied by those positions. *)
Theorem hardAttention_argmax_weights (d dv : nat) (Q K V : list (list R))
  (gumbels : tensor R) :
  Forall (fun row => length row = d) K -> K <> [] -> length V = length K ->
  exists idx,
    length idx = length Q /\ Forall (fun i => i < length K) idx /\
    hardAttention (T2 d Q) (T2 d K) (T2 dv V) None false gumbels
    = if length Q =? length K
      then Ok (T1 (map (dot (map INR idx)) (columns dv V)))
      else Raise RuntimeError.
Proof. apply hardAttention_argmax_eval. Qed.

Lemma hardAttention_argmax_weights_witness :
  exists idx,
    length idx = 1 /\ Forall (fun i => i < 2) idx /\
    hardAttention (T2 1 [[1%R]]) (T2 1 [[0]; [1]]%R) (T2 2 [[1; 0]; [0; 1]]%R) None false (T0 0%R)
    = Raise RuntimeError.
Proof.
  apply (hardAttention_argmax_weights 1 2 [[1%R]] [[0]; [1]]%R [[1; 0]; [0; 1]]%R (T0 0%R)).
  - repeat constructor.
  - discriminate.
  - reflexivity.
Defined.

(** ** [SelfAttentionLayer], [CrossAttentionLayer] and [MHSelfAttentionLayer] *)

(** X19 — self-attention is cross-attention of a sequence with itself: on
    an input that passes the checks (two axes or more, vectors of size
    [dims]) the two layers return the same result. *)
Theorem SelfAttention_is_CrossAttention_with_itself (self : AttentionLayer.t)
  (inputs : tensor R) :
  2 <= ndim inputs -> axis_from_end 0 inputs = dims self ->
  SelfAttentionLayer.forward self inputs = CrossAttentionLayer.forward self inputs inputs.
Proof.
  intros Hn Hd. unfold SelfAttentionLayer.forward, CrossAttentionLayer.forward.
  destruct inputs as [?|?|c rows|r c mats]; cbn in Hn; try lia; cbn in Hd; subst c;
    size_checks; rewrite !Nat.eqb_refl; size_checks; reflexivity.
Qed.

Lemma SelfAttention_is_CrossAttention_with_itself_witness :
  SelfAttentionLayer.forward example_layer (T2 2 [[1; 0]; [0; 1]]%R)
  = CrossAttentionLayer.forward example_layer (T2 2 [[1; 0]; [0; 1]]%R)
      (T2 2 [[1; 0]; [0; 1]]%R).
Proof.
  apply SelfAttention_is_CrossAttention_with_itself; cbn; [lia | reflexivity].
Defined.

Lemma attend_length (d dv : nat) (temp : R) (q : list R) (K V : list (list R)) :
  length (attend d dv temp q K V) = dv.
Proof. unfold attend. now rewrite length_map, columns_length. Qed.

(** X20 — [CrossAttentionLayer.forward] on a sequence of target vectors
    returns one output per target vector, the one it returns when that
    vector is passed alone: decoding one step at a time against the source
    gives the rows of the batch result. *)
Theorem CrossAttention_sequence_is_rowwise (self : AttentionLayer.t)
  (F E : list (list R)) :
  AttentionLayer.wf self ->
  Forall (fun f => length f = dims self) F ->
  Forall (fun e => length e = dims self) E ->
  exists outs,
    CrossAttentionLayer.forward self (T2 (dims self) F) (T2 (dims self) E)
      = Ok (T2 (dims self) outs) /\
    Forall2 (fun e o =>
               CrossAttentionLayer.forward self (T2 (dims self) F) (T1 e) = Ok (T1 o))
            E outs.
Proof.
  intros (wq & wk & wv & Eq & Ek & Ev & Lq & Lk & Lv & _) FF FE.
  set (d := dims self) in *.
  set (K := map (mv wk) F). set (V := map (mv wv) F).
  assert (FK : Forall (fun row => length row = d) K).
  { pose proof (Forall_mv_length wk F) as H. now rewrite Lk in H. }
  assert (LV : length V = length K) by (unfold V, K; now rewrite !length_map).
  exists (map (fun e => vadd (attend d d 1 (mv wq e) K V) e) E). split.
  - unfold CrossAttentionLayer.forward. fold d. rewrite Eq, Ek, Ev.
    size_checks. rewrite !Nat.eqb_refl. size_checks.
    rewrite !bmv_batch, Lq, Lk, Lv. cbn [bind]. fold K V.
    rewrite attention_batch_eval by assumption. cbn [bind].
    rewrite add_T2.
    + do 2 f_equal. rewrite map_map, map2_map_l, map2_diag. reflexivity.
    + now rewrite !length_map.
    + apply Forall_forall. intros row Hin. apply in_map_iff in Hin as [q [<- _]].
      apply attend_length.
    + exact FE.
  - induction FE as [|e E Le _ IH]; [constructor|].
    cbn [map]. constructor; [|exact IH].
    unfold CrossAttentionLayer.forward. fold d. rewrite Eq, Ek, Ev.
    size_checks. rewrite Le, !Nat.eqb_refl. size_checks.
    rewrite bmv_vector by exact Le. cbn [bind].
    rewrite !bmv_batch, Lk, Lv. cbn [bind]. fold K V.
    rewrite attention_vector_eval by (try assumption; now rewrite mv_length).
    cbn [bind]. rewrite add_T1; [reflexivity|]. now rewrite attend_length.
Qed.

Lemma CrossAttention_sequence_is_rowwise_witness :
  exists outs,
    CrossAttentionLayer.forward example_layer (T2 2 [[1; 0]; [0; 1]; [2; 2]]%R)
      (T2 2 [[1; 2]; [3; 4]]%R) = Ok (T2 2 outs) /\
    Forall2 (fun e o =>
               CrossAttentionLayer.forward example_layer
                 (T2 2 [[1; 0]; [0; 1]; [2; 2]]%R) (T1 e) = Ok (T1 o))
            [[1; 2]; [3; 4]]%R outs.
Proof.
  apply (CrossAttention_sequence_is_rowwise example_layer [[1; 0]; [0; 1]; [2; 2]]%R
           [[1; 2]; [3; 4]]%R).
  - apply AttentionLayer_init_wf.
  - repeat constructor.
  - repeat constructor.
Defined.

Lemma SelfAttention_eval (self : AttentionLayer.t) (X : list (list R)) :
  AttentionLayer.wf self -> Forall (fun x => length x = dims self) X ->
  SelfAttentionLayer.forward self (T2 (dims self) X)
  = Ok (T2 (dims self)
           (map (fun x => vadd (attend (dims self) (dims self) 1
                                  (mv (rows_of (W_Q self)) x)
                                  (map (mv (rows_of (W_K self))) X)
                                  (map (mv (rows_of (W_V self))) X)) x) X)).
Proof.
  intros (wq & wk & wv & Eq & Ek & Ev & Lq & Lk & Lv & _) FX.
  unfold SelfAttentionLayer.forward. rewrite Eq, Ek, Ev. cbn [rows_of].
  size_checks. rewrite !Nat.eqb_refl. size_checks.
  rewrite !bmv_batch, Lq, Lk, Lv. cbn [bind].
  rewrite attention_batch_eval.
  - cbn [bind]. rewrite add_T2.
    + do 2 f_equal. rewrite map_map, map2_map_l, map2_diag. reflexivity.
    + now rewrite !length_map.
    + apply Forall_forall. intros row Hin. apply in_map_iff in Hin as [q [<- _]].
      apply attend_length.
    + exact FX.
  - pose proof (Forall_mv_length wk X) as H. now rewrite Lk in H.
  - now rewrite !length_map.
Qed.

(** A number and a matrix: the number is combined with every entry. *)
Lemma broadcast2_T0_T2 {A B C : Type} (f : A -> B -> C) (z : A) (c : nat)
  (b : list (list B)) :
  Forall (fun row => length row = c) b ->
  broadcast2 f (T0 z) (T2 c b) = Ok (T2 c (map (map (f z)) b)).
Proof.
  intros Fb. unfold broadcast2. cbn [size].
  assert (Hs : broadcast_shapes [] [length b; c] = Some [length b; c]) by reflexivity.
  rewrite Hs.
  assert (Hz : expand_to [length b; c] (T0 z) = Ok (T2 c (repeat (repeat z c) (length b)))).
  { unfold expand_to. cbn [size]. rewrite Hs, shape_eqb_refl. cbn [negb as3].
    unfold expand3. cbn [map stretch repeat concat]. now rewrite app_nil_r. }
  rewrite Hz. cbn [bind]. rewrite expand_to_T2 by (reflexivity || assumption).
  cbn [bind zip_with]. do 2 f_equal. rewrite map2_repeat_l. clear Hs Hz.
  induction Fb as [|row b Hr _ IH]; [reflexivity|].
  cbn [map]. f_equal; [|exact IH]. rewrite <- Hr. apply map2_repeat_l.
Qed.

(** X21 — with a single head, [MHSelfAttentionLayer.forward] on a sequence is
    that head's [SelfAttentionLayer.forward]: the sum starts from 0 and is
    divided by 1. *)
Theorem MHSelfAttention_single_head (h : AttentionLayer.t) (X : list (list R)) :
  AttentionLayer.wf h -> Forall (fun x => length x = dims h) X ->
  MHSelfAttentionLayer.forward {| MHSelfAttentionLayer.heads := [h] |} (T2 (dims h) X)
  = SelfAttentionLayer.forward h (T2 (dims h) X).
Proof.
  intros Hwf FX. unfold MHSelfAttentionLayer.forward.
  cbn [MHSelfAttentionLayer.heads mapM]. rewrite SelfAttention_eval by assumption.
  cbn [bind fold_left]. unfold add. rewrite broadcast2_T0_T2.
  - cbn [bind length div_scalar tmap]. do 2 f_equal.
    rewrite map_map. etransitivity; [|apply map_id].
    apply map_ext. intros row. rewrite map_map. etransitivity; [|apply map_id].
    apply map_ext. intros a. cbn [INR]. lra.
  - apply Forall_forall. intros row Hin. apply in_map_iff in Hin as [x [<- Hx]].
    rewrite vadd_length; rewrite attend_length; [reflexivity|].
    symmetry. exact (proj1 (Forall_forall _ _) FX x Hx).
Qed.

Lemma MHSelfAttention_single_head_witness :
  MHSelfAttentionLayer.forward {| MHSelfAttentionLayer.heads := [example_layer] |}
    (T2 2 [[1; 0]; [0; 1]]%R)
  = SelfAttentionLayer.forward example_layer (T2 2 [[1; 0]; [0; 1]]%R).
Proof.
  apply (MHSelfAttention_single_head example_layer [[1; 0]; [0; 1]]%R).
  - apply AttentionLayer_init_wf.
  - repeat constructor.
Defined.

(** X22 — with no head at all the list of outputs is empty, its sum is the
    integer 0, and dividing it by [len(self.heads) = 0] ends in a
    [ZeroDivisionError], whatever the input. *)
Theorem MHSelfAttention_no_heads (inp : tensor R) :
  MHSelfAttentionLayer.forward {| MHSelfAttentionLayer.heads := [] |} inp
  = Raise ZeroDivisionError.
Proof. reflexivity. Qed.

(** ** [FFN] *)

Lemma LinearLayer_init_plain (i o : nat) s_W s_b :
  exists l, LinearLayer.init i o false s_W s_b = Ok l /\
            LinearLayer_sized l i o /\ LinearLayer.residual l = false.
Proof.
  eexists. split; [reflexivity|]. split; [|reflexivity].
  eexists. eexists. cbn [LinearLayer.W LinearLayer.b LinearLayer.residual].
  split; [reflexivity|]. split; [reflexivity|].
  split; [apply seq_map_length|]. split; [apply seq_map_length | discriminate].
Qed.

Lemma add_T1_mismatch (u v : list R) :
  length u <> length v -> length u <> 1 -> length v <> 1 ->
  add (T1 u) (T1 v) = Raise RuntimeError.
Proof.
  intros H Hu Hv. unfold add, broadcast2, broadcast_shapes.
  cbn [size rev app broadcast_rev].
  apply Nat.eqb_neq in H, Hu, Hv. now rewrite H, Hu, Hv.
Qed.

(** X23 — [FFN] on a vector of size [idims], for a layer whose residual
    sizes agree ([residual=False], or [idims = odims]): the result is
    [W2 relu(W1 x + b1) + b2], plus [x] when [residual] is set. *)
Theorem FFN_forward_formula (idims hdims odims : nat) (residual : bool)
  s_W1 s_b1 s_W2 s_b2 (x : list R) :
  length x = idims -> (residual = true -> idims = odims) ->
  exists ffn,
    FFN.init idims hdims odims residual s_W1 s_b1 s_W2 s_b2 = Ok ffn /\
    let y := linear (FFN.lin2 ffn) (relu (linear (FFN.lin1 ffn) x)) in
    FFN.forward ffn (T1 x) = Ok (T1 (if residual then vadd x y else y)).
Proof.
  intros Lx Hres.
  destruct (LinearLayer_init_plain idims hdims s_W1 s_b1) as (l1 & E1 & S1 & R1).
  destruct (LinearLayer_init_plain hdims odims s_W2 s_b2) as (l2 & E2 & S2 & R2).
  exists {| FFN.lin1 := l1; FFN.lin2 := l2; FFN.residual := residual |}. split.
  - unfold FFN.init. rewrite E1, E2. reflexivity.
  - cbv zeta. unfold FFN.forward. cbn [FFN.lin1 FFN.lin2 FFN.residual].
    destruct (LinearLayer_forward_affine_vector l1 idims hdims S1 x Lx) as [E L].
    rewrite E. cbn [bind tmap]. fold (relu (linear l1 x)).
    destruct (LinearLayer_forward_affine_vector l2 hdims odims S2 (relu (linear l1 x)))
      as [E' L']; [unfold relu; now rewrite length_map|].
    rewrite E'. cbn [bind].
    destruct residual; [|reflexivity].
    rewrite add_T1; [reflexivity|]. rewrite L', Lx. now apply Hres.
Qed.

Lemma FFN_forward_formula_witness :
  exists ffn,
    FFN.init 2 3 2 true (fun i j => INR (i + j)) (fun _ => 0%R) (fun _ _ => 1%R)
      (fun i => INR i) = Ok ffn /\
    FFN.forward ffn (T1 [1; -1]%R)
    = Ok (T1 (vadd [1; -1]%R
                (linear (FFN.lin2 ffn) (relu (linear (FFN.lin1 ffn) [1; -1]%R))))).
Proof.
  apply (FFN_forward_formula 2 3 2 true _ _ _ _ [1; -1]%R); reflexivity.
Defined.

(** A vector of size 1 and a vector: the single entry is combined with every
    entry of the other. *)
Lemma broadcast2_single_T1 {A B C : Type} (f : A -> B -> C) (a : A) (v : list B) :
  broadcast2 f (T1 [a]) (T1 v) = Ok (T1 (map (f a) v)).
Proof.
  unfold broadcast2. cbn [size length].
  assert (Hs : broadcast_shapes [1] [length v] = Some [length v]).
  { destruct v as [|b [|b' v]]; reflexivity. }
  rewrite Hs. unfold expand_to at 1. cbn [size length].
  rewrite Hs, shape_eqb_refl. cbn [negb as3]. unfold expand3.
  cbn [map stretch repeat concat app bind].
  rewrite app_nil_r, expand_to_T1 by reflexivity.
  cbn [bind zip_with]. do 2 f_equal. apply map2_repeat_l.
Qed.

(** X24 — [FFN] never refuses a residual connection between different sizes
    at construction (its [LinearLayer]s are built without one).  The mismatch
    shows at the addition in [forward]: a [RuntimeError] when neither size is
    1, and for [idims = 1] no error at all, the input being broadcast over
    the [odims] outputs. *)
Theorem FFN_residual_mismatch (idims hdims odims : nat) s_W1 s_b1 s_W2 s_b2 :
  exists ffn,
    FFN.init idims hdims odims true s_W1 s_b1 s_W2 s_b2 = Ok ffn /\
    (forall x, length x = idims -> idims <> odims -> idims <> 1 -> odims <> 1 ->
       FFN.forward ffn (T1 x) = Raise RuntimeError) /\
    (forall a, idims = 1 ->
       FFN.forward ffn (T1 [a])
       = Ok (T1 (map (Rplus a) (linear (FFN.lin2 ffn) (relu (linear (FFN.lin1 ffn) [a])))))).
Proof.
  destruct (LinearLayer_init_plain idims hdims s_W1 s_b1) as (l1 & E1 & S1 & R1).
  destruct (LinearLayer_init_plain hdims odims s_W2 s_b2) as (l2 & E2 & S2 & R2).
  exists {| FFN.lin1 := l1; FFN.lin2 := l2; FFN.residual := true |}.
  split; [unfold FFN.init; rewrite E1, E2; reflexivity|].
  assert (Hf : forall x, length x = idims ->
             FFN.forward {| FFN.lin1 := l1; FFN.lin2 := l2; FFN.residual := true |} (T1 x)
             = add (T1 x) (T1 (linear l2 (relu (linear l1 x)))) /\
             length (linear l2 (relu (linear l1 x))) = odims).
  { intros x Lx. unfold FFN.forward. cbn [FFN.lin1 FFN.lin2 FFN.residual].
    destruct (LinearLayer_forward_affine_vector l1 idims hdims S1 x Lx) as [E L].
    rewrite E. cbn [bind tmap]. fold (relu (linear l1 x)).
    destruct (LinearLayer_forward_affine_vector l2 hdims odims S2 (relu (linear l1 x)))
      as [E' L']; [unfold relu; now rewrite length_map|].
    rewrite E'. cbn [bind]. split; [reflexivity | exact L']. }
  cbn [FFN.lin1 FFN.lin2]. split.
  - intros x Lx Hio Hi Ho. destruct (Hf x Lx) as [-> L].
    apply add_T1_mismatch; rewrite ?L, ?Lx; assumption.
  - intros a Hi. destruct (Hf [a]) as [-> _]; [now rewrite Hi|].
    apply broadcast2_single_T1.
Qed.

Lemma FFN_residual_mismatch_witness :
  exists ffn,
    FFN.init 2 3 4 true (fun i j => INR (i + j)) (fun _ => 0%R) (fun _ _ => 1%R)
      (fun i => INR i) = Ok ffn /\
    FFN.forward ffn (T1 [1; -1]%R) = Raise RuntimeError.
Proof.
  destruct (FFN_residual_mismatch 2 3 4 (fun i j => INR (i + j)) (fun _ => 0%R)
              (fun _ _ => 1%R) (fun i => INR i)) as (ffn & E & Herr & _).
  exists ffn. split; [exact E|]. apply Herr; cbn; lia.
Defined.

(** ** [HardSelfAttentionLayer] with [gumbel=False] *)

(** A vector and a matrix with rows of its size: the vector is combined with
    every row. *)
Lemma broadcast2_T1_T2 {A B C : Type} (f : A -> B -> C) (c : nat)
  (v : list A) (b : list (list B)) :
  length v = c -> Forall (fun row => length row = c) b ->
  broadcast2 f (T1 v) (T2 c b) = Ok (T2 c (map (map2 f v) b)).
Proof.
  intros Lv Fb. unfold broadcast2. cbn [size]. rewrite Lv.
  assert (Hs : broadcast_shapes [c] [length b; c] = Some [length b; c]).
  { unfold broadcast_shapes. cbn [rev app broadcast_rev]. now rewrite Nat.eqb_refl. }
  rewrite Hs.
  assert (Hv : expand_to [length b; c] (T1 v) = Ok (T2 c (repeat v (length b)))).
  { unfold expand_to. cbn [size]. rewrite Lv, Hs, shape_eqb_refl.
    cbn [negb as3]. unfold expand3. cbn [map].
    rewrite (stretch_same c v) by exact Lv.
    cbn [stretch repeat concat]. now rewrite app_nil_r. }
  rewrite Hv. cbn [bind]. rewrite expand_to_T2 by (reflexivity || assumption).
  cbn [bind zip_with]. do 2 f_equal. apply map2_repeat_l.
Qed.

(** X25 — [HardSelfAttentionLayer.forward] with [gumbel=False] on a non-empty
    sequence does not raise: queries and keys are equally many, so the argmax
    positions are accepted as weights, and the single vector they produce is
    added to every input vector alike. *)
Theorem HardSelfAttention_argmax_same_context (self : AttentionLayer.t)
  (X : list (list R)) (gumbels : tensor R) :
  AttentionLayer.wf self -> X <> [] ->
  Forall (fun x => length x = dims self) X ->
  exists c,
    length c = dims self /\
    HardSelfAttentionLayer.forward self (T2 (dims self) X) false gumbels
    = Ok (T2 (dims self) (map (vadd c) X)).
Proof.
  intros (wq & wk & wv & Eq & Ek & Ev & Lq & Lk & Lv & _) HX FX.
  set (d := dims self) in *.
  set (Q := map (mv wq) X). set (K := map (mv wk) X). set (V := map (mv wv) X).
  assert (FK : Forall (fun row => length row = d) K).
  { pose proof (Forall_mv_length wk X) as H. now rewrite Lk in H. }
  assert (HK : K <> []) by (unfold K; destruct X; [congruence | discriminate]).
  assert (LV : length V = length K) by (unfold V, K; now rewrite !length_map).
  destruct (hardAttention_argmax_eval d d Q K V gumbels FK HK LV) as (idx & _ & _ & E).
  assert (LQ : (length Q =? length K) = true).
  { apply Nat.eqb_eq. unfold Q, K. now rewrite !length_map. }
  rewrite LQ in E.
  exists (map (dot (map INR idx)) (columns d V)).
  split; [now rewrite length_map, columns_length|].
  unfold HardSelfAttentionLayer.forward. fold d. rewrite Eq, Ek, Ev.
  size_checks. rewrite !Nat.eqb_refl. size_checks.
  rewrite !bmv_batch, Lq, Lk, Lv. cbn [bind]. fold Q K V.
  rewrite E. cbn [bind]. unfold add. rewrite broadcast2_T1_T2.
  - reflexivity.
  - now rewrite length_map, columns_length.
  - exact FX.
Qed.

Lemma HardSelfAttention_argmax_same_context_witness :
  exists c,
    length c = 2 /\
    HardSelfAttentionLayer.forward example_layer (T2 2 [[1; 0]; [0; 1]; [2; 3]]%R) false
      (T0 0%R)
    = Ok (T2 2 (map (vadd c) [[1; 0]; [0; 1]; [2; 3]]%R)).
Proof.
  apply (HardSelfAttention_argmax_same_context example_layer [[1; 0]; [0; 1]; [2; 3]]%R).
  - apply AttentionLayer_init_wf.
  - discriminate.
  - repeat constructor.
Defined.
